(** * AliasTimer: the timer state machine of src/components/AliasTimer.tsx

    The component keeps two pieces of React state, [settings] and [timer],
    and a visibility flag for the settings panel.  Every handler is a state
    updater [prev => {...prev, ...}]; the one-second interval is armed by an
    effect only while [timer.isRunning && timer.currentTime > 0].

    JavaScript numbers are modelled by [Z]: every number the component
    stores comes from an integer literal, from [parseInt], or from adding or
    subtracting one, so it is an integer; the model is exact as long as
    magnitudes stay below 2^53.  Beyond that a JavaScript number is the
    nearest double: [parseInt] rounds what it reads and the conversion to
    text no longer prints every digit.  Statements that depend on the
    value read from a text, or on the text printed for a number, carry
    [isSafeInteger] as a hypothesis. *)

From Stdlib Require Import ZArith List String Ascii Bool Lia.
From Stdlib Require Import Decimal DecimalString DecimalPos DecimalZ.
Import ListNotations.

Open Scope Z_scope.

Module AliasTimer.

(** ** Data model (lines 8-21) *)

Inductive Phase : Type := turn | guess.
Inductive Mode : Type := regular | special.

Record TimerState : Type := mkTimer {
  isRunning : bool;
  currentTime : Z;
  phase : Phase;
  isFinished : bool;
  mode : Mode;
  currentWord : Z
}.

Record TimerSettings : Type := mkSettings {
  turnTime : Z;
  guessTime : Z;
  specialTurnTime : Z
}.

Definition Mode_eqb (a b : Mode) : bool :=
  match a, b with
  | regular, regular | special, special => true
  | _, _ => false
  end.

(** Initial values of the two [useState] cells (lines 24-37). *)
Definition initialSettings : TimerSettings :=
  {| turnTime := 60; guessTime := 30; specialTurnTime := 45 |}.

Definition initialTimer : TimerState :=
  {| isRunning := false;
     currentTime := 60;
     phase := turn;
     isFinished := false;
     mode := regular;
     currentWord := 1 |}.

(** ** Side effects requested by the tick handler

    [playBeep(frequency, duration)], [playBuzzer()] and the three [toast]
    calls.  The toast texts are fixed; only the guess-phase one interpolates
    a value, [settings.guessTime]. *)

Inductive Toast : Type :=
| TurnEndedSpecial
| GuessPhaseStarting (seconds : Z)
| TurnEndedRegular.

Inductive Intent : Type :=
| PlayBeep (frequency duration : Z)
| PlayBuzzer
| ShowToast (t : Toast).





(** ** The interval callback (lines 98-150)

    [tick settings prev] is the updater passed to [setTimer] by the interval
    callback, together with the effects it requests, in program order. *)

Definition tick (settings : TimerSettings) (prev : TimerState)
  : list Intent * TimerState :=
  let newTime := currentTime prev - 1 in
  let warning :=
    if (newTime <=? 5) && (0 <? newTime) then [PlayBeep 1000 150] else [] in
  if newTime =? 0 then
    match mode prev with
    | special =>
        (warning ++ [PlayBuzzer; ShowToast TurnEndedSpecial],
         {| isRunning := false;
            currentTime := specialTurnTime settings;
            phase := phase prev;
            isFinished := true;
            mode := mode prev;
            currentWord := currentWord prev |})
    | regular =>
        match phase prev with
        | turn =>
            (warning ++
               [PlayBuzzer; ShowToast (GuessPhaseStarting (guessTime settings))],
             {| isRunning := isRunning prev;
                currentTime := guessTime settings;
                phase := guess;
                isFinished := isFinished prev;
                mode := mode prev;
                currentWord := currentWord prev |})
        | guess =>
            (warning ++ [PlayBuzzer; ShowToast TurnEndedRegular],
             {| isRunning := false;
                currentTime := turnTime settings;
                phase := turn;
                isFinished := true;
                mode := mode prev;
                currentWord := currentWord prev |})
        end
    end
  else
    (warning,
     {| isRunning := isRunning prev;
        currentTime := newTime;
        phase := phase prev;
        isFinished := isFinished prev;
        mode := mode prev;
        currentWord := currentWord prev |}).

(** The effect's guard (line 96): the interval exists only in renders where
    this holds. *)
Definition intervalArmed (timer : TimerState) : bool :=
  isRunning timer && (0 <? currentTime timer).

(** ** Command handlers (lines 166-247)

    A handler reads [timer] and [settings] from the render it was created
    in and queues an updater on [prev].  Both arguments are kept apart here;
    when events are processed one render at a time they are the same
    state. *)

Definition startTimer (prev : TimerState) : TimerState :=
  {| isRunning := true;
     currentTime := currentTime prev;
     phase := phase prev;
     isFinished := false;
     mode := mode prev;
     currentWord := currentWord prev |}.

Definition pauseTimer (prev : TimerState) : TimerState :=
  {| isRunning := false;
     currentTime := currentTime prev;
     phase := phase prev;
     isFinished := isFinished prev;
     mode := mode prev;
     currentWord := currentWord prev |}.

Definition resetTimer (settings : TimerSettings) (timer prev : TimerState)
  : TimerState :=
  let newTime :=
    match mode timer with
    | special => specialTurnTime settings
    | regular => turnTime settings
    end in
  {| isRunning := false;
     currentTime := newTime;
     phase := turn;
     isFinished := false;
     mode := mode prev;
     currentWord := currentWord prev |}.

Definition nextWord (settings : TimerSettings) (timer prev : TimerState)
  : TimerState :=
  let newWord :=
    if currentWord timer <? 5 then currentWord timer + 1 else 1 in
  {| isRunning := false;
     currentTime := specialTurnTime settings;
     phase := turn;
     isFinished := false;
     mode := mode prev;
     currentWord := newWord |}.

Definition updateTimerToSettings (settings : TimerSettings)
  (timer prev : TimerState) : TimerState :=
  let newTime :=
    match mode timer with
    | special => specialTurnTime settings
    | regular =>
        match phase timer with
        | turn => turnTime settings
        | guess => guessTime settings
        end
    end in
  {| isRunning := false;
     currentTime := newTime;
     phase := phase prev;
     isFinished := isFinished prev;
     mode := mode prev;
     currentWord := currentWord prev |}.

Definition toggleMode (settings : TimerSettings) (timer prev : TimerState)
  : TimerState :=
  let newMode :=
    match mode timer with regular => special | special => regular end in
  let newTime :=
    match newMode with
    | special => specialTurnTime settings
    | regular => turnTime settings
    end in
  {| isRunning := false;
     currentTime := newTime;
     phase := turn;
     isFinished := false;
     mode := newMode;
     currentWord := 1 |}.

(** ** Settings inputs (lines 286-315)

    Each input's [onChange] stores [parseInt(e.target.value) || d], with
    [d] the literal 60, 30 or 45.  [parseInt] is the ECMAScript built-in
    called without a radix; it is written out here for ASCII text: leading
    white space is skipped, one sign is read, a [0x]/[0X] prefix selects
    radix 16, and the longest prefix of digits is converted.  [None] stands
    for NaN.  The integer read is returned as it is: this is the value
    JavaScript returns when its magnitude is at most 2^53 - 1; a larger one
    is rounded there to the nearest double. *)

Definition isWhiteSpace (c : ascii) : bool :=
  let n := Z.of_nat (nat_of_ascii c) in
  ((9 <=? n) && (n <=? 13)) || (n =? 32).

Fixpoint trimStart (s : string) : string :=
  match s with
  | String c rest => if isWhiteSpace c then trimStart rest else s
  | EmptyString => EmptyString
  end.

Definition digitValue (c : ascii) : option Z :=
  let n := Z.of_nat (nat_of_ascii c) in
  if (48 <=? n) && (n <=? 57) then Some (n - 48)
  else if (97 <=? n) && (n <=? 122) then Some (n - 87)
  else if (65 <=? n) && (n <=? 90) then Some (n - 55)
  else None.

Definition radixDigit (R : Z) (c : ascii) : option Z :=
  match digitValue c with
  | Some d => if d <? R then Some d else None
  | None => None
  end.

(** Value of the longest prefix of radix-[R] digits, [acc] being the value
    read so far ([None]: no digit yet). *)
Fixpoint parseDigits (R : Z) (acc : option Z) (s : string) : option Z :=
  match s with
  | String c rest =>
      match radixDigit R c with
      | Some d =>
          parseDigits R
            (Some match acc with Some a => a * R + d | None => d end) rest
      | None => acc
      end
  | EmptyString => acc
  end.

(** Sign and radix prefix, each with the text that follows it. *)
Definition readSign (s : string) : Z * string :=
  match s with
  | String "-" rest => (-1, rest)
  | String "+" rest => (1, rest)
  | _ => (1, s)
  end.

Definition readRadix (s : string) : Z * string :=
  match s with
  | String "0" (String "x" rest) => (16, rest)
  | String "0" (String "X" rest) => (16, rest)
  | _ => (10, s)
  end.

Definition parseInt (inputString : string) : option Z :=
  let '(sign, S1) := readSign (trimStart inputString) in
  let '(R, S2) := readRadix S1 in
  match parseDigits R None S2 with
  | Some mathInt => Some (sign * mathInt)
  | None => None
  end.

(** [x || d] on a number: NaN and zero are falsy. *)
Definition orDefault (x : option Z) (d : Z) : Z :=
  match x with
  | Some n => if n =? 0 then d else n
  | None => d
  end.

Definition onChangeTurnTime (value : string) (prev : TimerSettings)
  : TimerSettings :=
  {| turnTime := orDefault (parseInt value) 60;
     guessTime := guessTime prev;
     specialTurnTime := specialTurnTime prev |}.

Definition onChangeGuessTime (value : string) (prev : TimerSettings)
  : TimerSettings :=
  {| turnTime := turnTime prev;
     guessTime := orDefault (parseInt value) 30;
     specialTurnTime := specialTurnTime prev |}.

Definition onChangeSpecialTurnTime (value : string) (prev : TimerSettings)
  : TimerSettings :=
  {| turnTime := turnTime prev;
     guessTime := guessTime prev;
     specialTurnTime := orDefault (parseInt value) 45 |}.

(** The three inputs, with the [min] and [max] attributes they declare and
    the fallback literal of their handler. *)
Inductive Field : Type := TurnTimeInput | GuessTimeInput | SpecialTurnTimeInput.

Definition minAttr (f : Field) : Z :=
  match f with
  | TurnTimeInput => 10
  | GuessTimeInput => 5
  | SpecialTurnTimeInput => 10
  end.

Definition maxAttr (f : Field) : Z :=
  match f with
  | TurnTimeInput => 300
  | GuessTimeInput => 120
  | SpecialTurnTimeInput => 300
  end.

Definition fallback (f : Field) : Z :=
  match f with
  | TurnTimeInput => 60
  | GuessTimeInput => 30
  | SpecialTurnTimeInput => 45
  end.

Definition fieldValue (f : Field) (s : TimerSettings) : Z :=
  match f with
  | TurnTimeInput => turnTime s
  | GuessTimeInput => guessTime s
  | SpecialTurnTimeInput => specialTurnTime s
  end.

Definition onChange (f : Field) : string -> TimerSettings -> TimerSettings :=
  match f with
  | TurnTimeInput => onChangeTurnTime
  | GuessTimeInput => onChangeGuessTime
  | SpecialTurnTimeInput => onChangeSpecialTurnTime
  end.

Definition withinAttrs (f : Field) (n : Z) : bool :=
  (minAttr f <=? n) && (n <=? maxAttr f).

Definition settingsWithinAttrs (s : TimerSettings) : bool :=
  withinAttrs TurnTimeInput (turnTime s)
  && withinAttrs GuessTimeInput (guessTime s)
  && withinAttrs SpecialTurnTimeInput (specialTurnTime s).

(** The decimal numeral of an integer, as a user would type it. *)
Definition numeral (n : Z) : string := NilEmpty.string_of_int (Z.to_int n).

(** ** The component as a whole

    What is on screen depends on the state: the update button and the three
    inputs are inside the settings panel (line 280), the next-word button
    is rendered only in special mode (line 381), and the main button pauses
    when running and starts otherwise (line 352). *)

Record App : Type := mkApp {
  appSettings : TimerSettings;
  appTimer : TimerState;
  showSettings : bool
}.

Definition initialApp : App :=
  {| appSettings := initialSettings;
     appTimer := initialTimer;
     showSettings := false |}.

Inductive Control : Type :=
| ModeToggleButton
| SettingsButton
| UpdateButton
| MainActionButton
| ResetButton
| NextWordButton.

Inductive Event : Type :=
| Click (c : Control)
| Change (f : Field) (value : string)
| IntervalFired.

Definition rendered (app : App) (c : Control) : bool :=
  match c with
  | UpdateButton => showSettings app
  | NextWordButton => Mode_eqb (mode (appTimer app)) special
  | _ => true
  end.

Definition withTimer (app : App) (t : TimerState) : App :=
  {| appSettings := appSettings app;
     appTimer := t;
     showSettings := showSettings app |}.

Definition onClick (c : Control) (app : App) : App :=
  let settings := appSettings app in
  let timer := appTimer app in
  match c with
  | ModeToggleButton => withTimer app (toggleMode settings timer timer)
  | SettingsButton =>
      {| appSettings := settings;
         appTimer := timer;
         showSettings := negb (showSettings app) |}
  | UpdateButton => withTimer app (updateTimerToSettings settings timer timer)
  | MainActionButton =>
      withTimer app
        (if isRunning timer then pauseTimer timer else startTimer timer)
  | ResetButton => withTimer app (resetTimer settings timer timer)
  | NextWordButton => withTimer app (nextWord settings timer timer)
  end.

(** One event, processed to completion.  [None]: the event cannot occur in
    this state (control not on screen, interval not armed). *)
Definition dispatch (e : Event) (app : App) : option (list Intent * App) :=
  match e with
  | Click c =>
      if rendered app c then Some ([], onClick c app) else None
  | Change f value =>
      if showSettings app then
        Some ([], {| appSettings := onChange f value (appSettings app);
                     appTimer := appTimer app;
                     showSettings := showSettings app |})
      else None
  | IntervalFired =>
      if intervalArmed (appTimer app) then
        let '(out, t) := tick (appSettings app) (appTimer app) in
        Some (out, withTimer app t)
      else None
  end.

Fixpoint run (es : list Event) (app : App) : option (list Intent * App) :=
  match es with
  | [] => Some ([], app)
  | e :: rest =>
      match dispatch e app with
      | Some (out, app') =>
          match run rest app' with
          | Some (out', app'') => Some (out ++ out', app'')
          | None => None
          end
      | None => None
      end
  end.

(** [n] interval callbacks in a row on the timer alone. *)
Fixpoint ticks (n : nat) (settings : TimerSettings) (t : TimerState)
  : option TimerState :=
  match n with
  | O => Some t
  | S k =>
      if intervalArmed t then ticks k settings (snd (tick settings t))
      else None
  end.

(** ** Commands of the state machine, one render at a time *)

Inductive Command : Type :=
| CTick
| CStart
| CPause
| CReset
| CNextWord
| CToggleMode
| CApplySettings.

Definition enabled (c : Command) (t : TimerState) : bool :=
  match c with
  | CTick => intervalArmed t
  | _ => true
  end.

Definition apply (settings : TimerSettings) (c : Command) (t : TimerState)
  : TimerState :=
  match c with
  | CTick => snd (tick settings t)
  | CStart => startTimer t
  | CPause => pauseTimer t
  | CReset => resetTimer settings t t
  | CNextWord => nextWord settings t t
  | CToggleMode => toggleMode settings t t
  | CApplySettings => updateTimerToSettings settings t t
  end.

(** A session: commands in order, each with the settings in force when it
    is processed.  [None]: a tick was asked for while the interval was not
    armed. *)
Fixpoint applyAll (cs : list (TimerSettings * Command)) (t : TimerState)
  : option TimerState :=
  match cs with
  | [] => Some t
  | (settings, c) :: rest =>
      if enabled c t then applyAll rest (apply settings c t) else None
  end.

(** The state invariant: time is not negative, running and finished
    exclude each other, the word index is between 1 and 5. *)
Definition Inv (t : TimerState) : Prop :=
  0 <= currentTime t
  /\ ~ (isRunning t = true /\ isFinished t = true)
  /\ 1 <= currentWord t <= 5.

Definition nonNegative (s : TimerSettings) : Prop :=
  0 <= turnTime s /\ 0 <= guessTime s /\ 0 <= specialTurnTime s.

(** Nominal duration of a mode. *)
Definition nominal (settings : TimerSettings) (m : Mode) : Z :=
  match m with
  | special => specialTurnTime settings
  | regular => turnTime settings
  end.

Definition flip (m : Mode) : Mode :=
  match m with regular => special | special => regular end.

Definition Field_eq_dec (f g : Field) : {f = g} + {f <> g}.
Proof. decide equality. Defined.

(** Events that edit a settings input. *)
Definition isEdit (e : Event) : bool :=
  match e with Change _ _ => true | _ => false end.

(** ** Display helpers (lines 222-232)

    [formatTime] uses [Math.floor] of a quotient by 60, the remainder
    operator [%] (sign of the dividend, [Z.rem]), [Number.prototype.toString]
    on an integer (its decimal numeral, with a minus sign when negative) and
    [String.prototype.padStart].  The numeral is what JavaScript prints for
    an integer of magnitude at most 2^53 - 1; larger numbers are printed
    with their shortest round-trip digits, in exponent notation from 1e21
    on, which [toString] does not follow. *)

Definition toString (n : Z) : string := numeral n.

(** [Number.isSafeInteger]: the integers every one of which is a double and
    on which quotient, remainder, [parseInt] and the conversion to text are
    exact. *)
Definition isSafeInteger (n : Z) : bool := Z.abs n <=? 2 ^ 53 - 1.

(** [n] characters taken from [fillString] repeated; [cur] is what is left
    of the copy being read. *)
Fixpoint fillTo (n : nat) (fillString cur : string) : string :=
  match n with
  | O => EmptyString
  | S k =>
      match cur with
      | String c rest => String c (fillTo k fillString rest)
      | EmptyString =>
          match fillString with
          | String c rest => String c (fillTo k fillString rest)
          | EmptyString => EmptyString
          end
      end
  end.

Definition padStart (maxLength : nat) (fillString : string) (S : string)
  : string :=
  let stringLength := String.length S in
  if (maxLength <=? stringLength)%nat then S
  else
    match fillString with
    | EmptyString => S
    | _ => fillTo (maxLength - stringLength) fillString fillString ++ S
    end.

Definition formatTime (seconds : Z) : string :=
  let mins := seconds / 60 in
  let secs := Z.rem seconds 60 in
  toString mins ++ ":" ++ padStart 2 "0" (toString secs).

Inductive TimerColor : Type :=
| text_timer_danger
| text_timer_warning
| text_timer_active.

Definition getTimerColor (timer : TimerState) : TimerColor :=
  if currentTime timer <=? 5 then text_timer_danger
  else if currentTime timer <=? 10 then text_timer_warning
  else text_timer_active.

(** The four texts of the main button (lines 249-254), in source order. *)
Inductive ButtonText : Type :=
| NewTurnText
| SpecialTurnText
| TurnText
| GuessesText.

Definition getButtonText (timer : TimerState) : ButtonText :=
  if isFinished timer then NewTurnText
  else
    match mode timer with
    | special => SpecialTurnText
    | regular =>
        match phase timer with
        | turn => TurnText
        | guess => GuessesText
        end
    end.

(** ** Ticks with their effects *)

(** The warning beep of line 103. *)
Definition beep : Intent := PlayBeep 1000 150.

(** The state [t] with another value on the clock. *)
Definition withTime (t : TimerState) (c : Z) : TimerState :=
  {| isRunning := isRunning t;
     currentTime := c;
     phase := phase t;
     isFinished := isFinished t;
     mode := mode t;
     currentWord := currentWord t |}.

Fixpoint ticksLog (n : nat) (settings : TimerSettings) (t : TimerState)
  : option (list Intent * TimerState) :=
  match n with
  | O => Some ([], t)
  | S k =>
      if intervalArmed t then
        let '(out, t') := tick settings t in
        match ticksLog k settings t' with
        | Some (out', t'') => Some (out ++ out', t'')
        | None => None
        end
      else None
  end.

(** ** The interval effect (lines 95-164)

    The effect runs after a render whose dependency values differ from
    those of its previous run: first the clean-up returned by the previous
    run, then the body.  [timer.isRunning], [timer.currentTime] and
    [timer.phase] are compared by value; [settings] is compared by identity,
    and every [setSettings] call stores a new object, so the cell carries a
    stamp that each edit advances.  [toast] comes from the [useToast] hook
    and is taken to be the same function in every render.  The browser's
    table of live intervals is a list of handles, each with the [settings]
    its callback closed over. *)

Definition Handle : Type := positive.

Record Deps : Type := mkDeps {
  depIsRunning : bool;
  depCurrentTime : Z;
  depPhase : Phase;
  depSettings : nat
}.

Definition Phase_eqb (a b : Phase) : bool :=
  match a, b with
  | turn, turn | guess, guess => true
  | _, _ => false
  end.

Definition Deps_eqb (a b : Deps) : bool :=
  Bool.eqb (depIsRunning a) (depIsRunning b)
  && (depCurrentTime a =? depCurrentTime b)
  && Phase_eqb (depPhase a) (depPhase b)
  && (depSettings a =? depSettings b)%nat.

Record Runtime : Type := mkRuntime {
  rtApp : App;
  settingsStamp : nat;
  intervalRef : option Handle;
  liveIntervals : list (Handle * TimerSettings);
  nextHandle : Handle;
  effectDeps : option Deps
}.

Definition clearInterval (h : Handle) (live : list (Handle * TimerSettings))
  : list (Handle * TimerSettings) :=
  List.filter (fun entry => negb (Pos.eqb (fst entry) h)) live.

Fixpoint findInterval (h : Handle) (live : list (Handle * TimerSettings))
  : option TimerSettings :=
  match live with
  | [] => None
  | (h', settings) :: rest =>
      if Pos.eqb h' h then Some settings else findInterval h rest
  end.

Definition depsOf (rt : Runtime) : Deps :=
  {| depIsRunning := isRunning (appTimer (rtApp rt));
     depCurrentTime := currentTime (appTimer (rtApp rt));
     depPhase := phase (appTimer (rtApp rt));
     depSettings := settingsStamp rt |}.

(** The function returned by the effect (lines 159-163). *)
Definition effectCleanup (rt : Runtime) : Runtime :=
  match intervalRef rt with
  | Some h =>
      {| rtApp := rtApp rt;
         settingsStamp := settingsStamp rt;
         intervalRef := intervalRef rt;
         liveIntervals := clearInterval h (liveIntervals rt);
         nextHandle := nextHandle rt;
         effectDeps := effectDeps rt |}
  | None => rt
  end.

(** The effect's body (lines 96-157). *)
Definition effectBody (rt : Runtime) : Runtime :=
  if intervalArmed (appTimer (rtApp rt)) then
    {| rtApp := rtApp rt;
       settingsStamp := settingsStamp rt;
       intervalRef := Some (nextHandle rt);
       liveIntervals :=
         (nextHandle rt, appSettings (rtApp rt)) :: liveIntervals rt;
       nextHandle := Pos.succ (nextHandle rt);
       effectDeps := effectDeps rt |}
  else
    match intervalRef rt with
    | Some h =>
        {| rtApp := rtApp rt;
           settingsStamp := settingsStamp rt;
           intervalRef := None;
           liveIntervals := clearInterval h (liveIntervals rt);
           nextHandle := nextHandle rt;
           effectDeps := effectDeps rt |}
    | None => rt
    end.

Definition withEffectDeps (rt : Runtime) (d : option Deps) : Runtime :=
  {| rtApp := rtApp rt;
     settingsStamp := settingsStamp rt;
     intervalRef := intervalRef rt;
     liveIntervals := liveIntervals rt;
     nextHandle := nextHandle rt;
     effectDeps := d |}.

(** After a render: the effect is skipped when its dependencies are those
    of its last run. *)
Definition commit (rt : Runtime) : Runtime :=
  match effectDeps rt with
  | Some d =>
      if Deps_eqb d (depsOf rt) then rt
      else withEffectDeps (effectBody (effectCleanup rt)) (Some (depsOf rt))
  | None => withEffectDeps (effectBody rt) (Some (depsOf rt))
  end.

Definition mount : Runtime :=
  commit {| rtApp := initialApp;
            settingsStamp := 0;
            intervalRef := None;
            liveIntervals := [];
            nextHandle := 1%positive;
            effectDeps := None |}.

Definition unmount (rt : Runtime) : Runtime :=
  withEffectDeps (effectCleanup rt) None.

Definition withApp (rt : Runtime) (app : App) (stamp : nat) : Runtime :=
  {| rtApp := app;
     settingsStamp := stamp;
     intervalRef := intervalRef rt;
     liveIntervals := liveIntervals rt;
     nextHandle := nextHandle rt;
     effectDeps := effectDeps rt |}.

(** What can happen to the mounted component: a user event, or the callback
    of a live interval. *)
Inductive Happening : Type :=
| User (e : Event)
| Callback (h : Handle).

Definition happen (x : Happening) (rt : Runtime)
  : option (list Intent * Runtime) :=
  match x with
  | User IntervalFired => None
  | User (Click c) =>
      match dispatch (Click c) (rtApp rt) with
      | Some (out, app) => Some (out, commit (withApp rt app (settingsStamp rt)))
      | None => None
      end
  | User (Change f value) =>
      match dispatch (Change f value) (rtApp rt) with
      | Some (out, app) =>
          Some (out, commit (withApp rt app (S (settingsStamp rt))))
      | None => None
      end
  | Callback h =>
      match findInterval h (liveIntervals rt) with
      | Some settings =>
          let '(out, t) := tick settings (appTimer (rtApp rt)) in
          Some (out,
                commit (withApp rt (withTimer (rtApp rt) t)
                          (settingsStamp rt)))
      | None => None
      end
  end.

Fixpoint happenAll (xs : list Happening) (rt : Runtime)
  : option (list Intent * Runtime) :=
  match xs with
  | [] => Some ([], rt)
  | x :: rest =>
      match happen x rt with
      | Some (out, rt') =>
          match happenAll rest rt' with
          | Some (out', rt'') => Some (out ++ out', rt'')
          | None => None
          end
      | None => None
      end
  end.

(** The event of the component-level model that a happening amounts to. *)
Definition eventOf (x : Happening) : Event :=
  match x with
  | User e => e
  | Callback _ => IntervalFired
  end.

(** The interval table agrees with the rendered state: one live interval,
    referenced by [intervalRef] and closed over the current settings, when
    the guard of line 96 holds, and none otherwise. *)
Definition intervalsInStep (rt : Runtime) : Prop :=
  effectDeps rt = Some (depsOf rt)
  /\ if intervalArmed (appTimer (rtApp rt)) then
       exists h : Handle,
         intervalRef rt = Some h
         /\ liveIntervals rt = [(h, appSettings (rtApp rt))]
     else intervalRef rt = None /\ liveIntervals rt = [].

(** In special mode the phase is the turn phase. *)
Definition specialHoldsTurn (t : TimerState) : Prop :=
  mode t = special -> phase t = turn.

(** ** The next-word command as the specification words it

    For comparison with the source, not taken from it.  The specification
    gives the state machine a command [nextWord()] that may be issued in any
    state and does nothing in regular mode.  [specNextWord] is that command;
    [specDispatch] is the component with it in place of the gated button,
    every other event being handled as in [dispatch]. *)




(** * Properties *)

Section TickFacts.

Variable settings : TimerSettings.

(** The updater's result, case by case on [newTime] and then on mode before
    phase, as the source nests its tests. *)
Lemma tick_state_not_zero (prev : TimerState) :
  currentTime prev - 1 <> 0 ->
  snd (tick settings prev) =
    {| isRunning := isRunning prev;
       currentTime := currentTime prev - 1;
       phase := phase prev;
       isFinished := isFinished prev;
       mode := mode prev;
       currentWord := currentWord prev |}.
Proof.
  intros Hnz. unfold tick.
  destruct (Z.eqb_spec (currentTime prev - 1) 0) as [E | _]; [contradiction|].
  reflexivity.
Qed.

Lemma tick_state_zero (prev : TimerState) :
  currentTime prev = 1 ->
  snd (tick settings prev) =
    match mode prev, phase prev with
    | special, _ =>
        {| isRunning := false;
           currentTime := specialTurnTime settings;
           phase := phase prev;
           isFinished := true;
           mode := special;
           currentWord := currentWord prev |}
    | regular, turn =>
        {| isRunning := isRunning prev;
           currentTime := guessTime settings;
           phase := guess;
           isFinished := isFinished prev;
           mode := regular;
           currentWord := currentWord prev |}
    | regular, guess =>
        {| isRunning := false;
           currentTime := turnTime settings;
           phase := turn;
           isFinished := true;
           mode := regular;
           currentWord := currentWord prev |}
    end.
Proof.
  intros H1. unfold tick. rewrite H1. simpl.
  destruct (mode prev), (phase prev); reflexivity.
Qed.

Lemma tick_mode (prev : TimerState) :
  mode (snd (tick settings prev)) = mode prev.
Proof.
  unfold tick.
  destruct (currentTime prev - 1 =? 0); [|reflexivity].
  destruct (mode prev); [destruct (phase prev)|]; reflexivity.
Qed.

(** While more than [n] seconds remain, [n] callbacks in a row all find the
    interval armed and only count down. *)
Lemma ticks_countdown (n : nat) :
  forall t : TimerState,
    isRunning t = true ->
    Z.of_nat n < currentTime t ->
    ticks n settings t =
      Some {| isRunning := true;
              currentTime := currentTime t - Z.of_nat n;
              phase := phase t;
              isFinished := isFinished t;
              mode := mode t;
              currentWord := currentWord t |}.
Proof.
  induction n as [|k IH]; intros t Hrun Hlt.
  - destruct t as [r ct ph f m w]. simpl in *. subst r.
    now rewrite Z.sub_0_r.
  - cbn [ticks]. unfold intervalArmed. rewrite Hrun.
    replace (0 <? currentTime t) with true
      by (symmetry; apply Z.ltb_lt; lia).
    cbn [andb].
    rewrite tick_state_not_zero by lia.
    rewrite IH; cbn [isRunning currentTime phase isFinished mode currentWord];
      [| assumption | lia].
    do 2 f_equal. lia.
Qed.

Lemma ticks_add (a b : nat) :
  forall t : TimerState,
    ticks (a + b) settings t =
      match ticks a settings t with
      | Some t' => ticks b settings t'
      | None => None
      end.
Proof.
  induction a as [|a IHa]; intros t; cbn [ticks Nat.add].
  - reflexivity.
  - destruct (intervalArmed t); [apply IHa | reflexivity].
Qed.

End TickFacts.

(** C1. In regular mode, when the turn phase reaches zero the guess phase
    begins at once: a tick taken with one second left puts [guessTime] on
    the clock, switches to the guess phase and keeps the timer running.
    With a 60-second turn and a 30-second guess, start followed by sixty
    ticks ends in the guess phase, 30 seconds left, running, not
    finished. *)
Theorem C1_turn_expiry_starts_guess_phase :
  (forall (settings : TimerSettings) (prev : TimerState),
      mode prev = regular ->
      phase prev = turn ->
      isRunning prev = true ->
      currentTime prev = 1 ->
      let next := snd (tick settings prev) in
      intervalArmed prev = true
      /\ currentTime prev - 1 = 0
      /\ currentTime next = guessTime settings
      /\ phase next = guess
      /\ isRunning next = true)
  /\ (forall (settings : TimerSettings) (t : TimerState),
         mode t = regular ->
         phase t = turn ->
         turnTime settings = 60 ->
         guessTime settings = 30 ->
         currentTime t = turnTime settings ->
         exists next,
           ticks 60 settings (startTimer t) = Some next
           /\ phase next = guess
           /\ currentTime next = 30
           /\ isRunning next = true
           /\ isFinished next = false).
Proof.
  split.
  - intros settings prev Hm Hp Hr Ht next. subst next.
    rewrite (tick_state_zero settings prev Ht), Hm, Hp.
    unfold intervalArmed. rewrite Hr, Ht. cbn. repeat split; lia.
  - intros settings t Hm Hp Htt Hgt Hct.
    change 60%nat with (59 + 1)%nat. rewrite ticks_add.
    rewrite ticks_countdown
      by (cbn [startTimer isRunning currentTime]; first [reflexivity | lia]).
    cbn [startTimer isRunning currentTime phase isFinished mode currentWord].
    rewrite Hct, Htt, Hm, Hp.
    eexists. split.
    + cbn. reflexivity.
    + cbn. rewrite Hgt. repeat split; reflexivity.
Qed.

Lemma C1_witness :
  (let prev := {| isRunning := true; currentTime := 1; phase := turn;
                  isFinished := false; mode := regular; currentWord := 1 |} in
   let next := snd (tick initialSettings prev) in
   intervalArmed prev = true
   /\ currentTime prev - 1 = 0
   /\ currentTime next = guessTime initialSettings
   /\ phase next = guess
   /\ isRunning next = true)
  /\ (exists next,
         ticks 60 initialSettings (startTimer initialTimer) = Some next
         /\ phase next = guess
         /\ currentTime next = 30
         /\ isRunning next = true
         /\ isFinished next = false).
Proof.
  split.
  - apply (proj1 C1_turn_expiry_starts_guess_phase); reflexivity.
  - apply (proj2 C1_turn_expiry_starts_guess_phase); reflexivity.
Defined.

(** C2. The two expiries that end a turn.  A tick taken with one second
    left, the mode being tested before the phase: in special mode the clock
    shows [specialTurnTime], the timer stops and is finished, phase and word
    are kept; in regular mode during the guess phase the clock shows
    [turnTime], the phase is the turn phase again, the timer stops and is
    finished. *)
Theorem C2_turn_ending_expiries :
  forall (settings : TimerSettings) (prev : TimerState),
    isRunning prev = true ->
    currentTime prev = 1 ->
    let next := snd (tick settings prev) in
    currentTime prev - 1 = 0
    /\ (mode prev = special ->
        currentTime next = specialTurnTime settings
        /\ isRunning next = false
        /\ isFinished next = true
        /\ phase next = phase prev
        /\ currentWord next = currentWord prev)
    /\ (mode prev = regular ->
        phase prev = guess ->
        currentTime next = turnTime settings
        /\ phase next = turn
        /\ isRunning next = false
        /\ isFinished next = true).
Proof.
  intros settings prev _ Ht next. subst next.
  rewrite (tick_state_zero settings prev Ht).
  split; [lia|]. split.
  - intros ->. cbn. repeat split; reflexivity.
  - intros -> ->. cbn. repeat split; reflexivity.
Qed.

Lemma C2_witness :
  let special_prev :=
    {| isRunning := true; currentTime := 1; phase := guess;
       isFinished := false; mode := special; currentWord := 3 |} in
  let guess_prev :=
    {| isRunning := true; currentTime := 1; phase := guess;
       isFinished := false; mode := regular; currentWord := 1 |} in
  snd (tick initialSettings special_prev) =
    {| isRunning := false; currentTime := 45; phase := guess;
       isFinished := true; mode := special; currentWord := 3 |}
  /\ currentTime (snd (tick initialSettings guess_prev)) = 60
  /\ phase (snd (tick initialSettings guess_prev)) = turn
  /\ isRunning (snd (tick initialSettings guess_prev)) = false
  /\ isFinished (snd (tick initialSettings guess_prev)) = true.
Proof.
  intros special_prev guess_prev.
  pose proof (C2_turn_ending_expiries initialSettings special_prev
                eq_refl eq_refl) as [_ [Hs _]].
  pose proof (C2_turn_ending_expiries initialSettings guess_prev
                eq_refl eq_refl) as [_ [_ Hg]].
  specialize (Hs eq_refl). specialize (Hg eq_refl eq_refl).
  split; [reflexivity | exact Hg].
Defined.



(** ** The next-word command *)

(** The handler has no test on the mode: whatever the state, it stops the
    timer, clears the finished flag, returns to the turn phase, puts
    [specialTurnTime] on the clock and advances the word, 5 wrapping
    to 1. *)
Lemma nextWord_effect (settings : TimerSettings) (t : TimerState) :
  nextWord settings t t =
    {| isRunning := false;
       currentTime := specialTurnTime settings;
       phase := turn;
       isFinished := false;
       mode := mode t;
       currentWord := if currentWord t <? 5 then currentWord t + 1 else 1 |}.
Proof. reflexivity. Qed.




(** ** Mode toggle *)

Lemma toggleMode_effect (settings : TimerSettings) (t : TimerState) :
  toggleMode settings t t =
    {| isRunning := false;
       currentTime := nominal settings (flip (mode t));
       phase := turn;
       isFinished := false;
       mode := flip (mode t);
       currentWord := 1 |}.
Proof. destruct t as [r ct ph f m w]; destruct m; reflexivity. Qed.

Lemma flip_involutive (m : Mode) : flip (flip m) = m.
Proof. destruct m; reflexivity. Qed.

Lemma flip_changes (m : Mode) : flip m <> m.
Proof. destruct m; discriminate. Qed.

(** C7. Two toggles give back the original mode, in the turn phase, paused,
    not finished, at word 1, with the nominal duration of that mode under
    the settings in force at the second toggle.  One toggle flips the mode
    and forces the same fields, with the nominal duration of the new
    mode. *)
Theorem C7_toggle_mode_round_trip :
  forall (first second : TimerSettings) (t : TimerState),
    let once := toggleMode first t t in
    let twice := toggleMode second once once in
    (mode twice = mode t
     /\ phase twice = turn
     /\ isRunning twice = false
     /\ isFinished twice = false
     /\ currentWord twice = 1
     /\ currentTime twice = nominal second (mode twice))
    /\ (mode once = flip (mode t)
        /\ mode once <> mode t
        /\ phase once = turn
        /\ isRunning once = false
        /\ isFinished once = false
        /\ currentWord once = 1
        /\ currentTime once = nominal first (mode once)).
Proof.
  intros first second t once twice. subst twice once.
  rewrite !toggleMode_effect. cbn.
  rewrite flip_involutive.
  repeat split; try reflexivity. apply flip_changes.
Qed.

(** ** Applying the settings *)

(** C8. The update handler puts on the clock the duration that belongs to
    the current mode and phase, taken from the settings it is given, and
    stops the timer; phase, mode, finished flag and word are kept.  With a
    turn time of 90, a timer paused in the regular turn phase at 40 shows
    90. *)
Theorem C8_apply_settings_effect :
  (forall (settings : TimerSettings) (t : TimerState),
      let next := updateTimerToSettings settings t t in
      currentTime next =
        match mode t, phase t with
        | special, _ => specialTurnTime settings
        | regular, turn => turnTime settings
        | regular, guess => guessTime settings
        end
      /\ isRunning next = false
      /\ phase next = phase t
      /\ mode next = mode t
      /\ isFinished next = isFinished t
      /\ currentWord next = currentWord t)
  /\ (forall (settings : TimerSettings) (t : TimerState),
         turnTime settings = 90 ->
         mode t = regular ->
         phase t = turn ->
         isRunning t = false ->
         currentTime t = 40 ->
         currentTime (updateTimerToSettings settings t t) = 90
         /\ isRunning (updateTimerToSettings settings t t) = false).
Proof.
  split.
  - intros settings t next. subst next.
    unfold updateTimerToSettings. cbn.
    destruct (mode t), (phase t); repeat split; reflexivity.
  - intros settings t H90 Hm Hp _ _.
    unfold updateTimerToSettings. cbn. rewrite Hm, Hp.
    split; [exact H90 | reflexivity].
Qed.

Lemma C8_witness :
  let settings :=
    {| turnTime := 90; guessTime := 30; specialTurnTime := 45 |} in
  let t := {| isRunning := false; currentTime := 40; phase := turn;
              isFinished := false; mode := regular; currentWord := 1 |} in
  currentTime (updateTimerToSettings settings t t) = 90
  /\ isRunning (updateTimerToSettings settings t t) = false.
Proof.
  intros settings t.
  apply (proj2 C8_apply_settings_effect settings t); reflexivity.
Defined.

(** The same scenario through the user interface: open the panel, type 90
    in the turn-time input, press the update button. *)
Example scenario_apply_settings_ui :
  let app :=
    {| appSettings := initialSettings;
       appTimer := {| isRunning := false; currentTime := 40; phase := turn;
                      isFinished := false; mode := regular;
                      currentWord := 1 |};
       showSettings := false |} in
  run [Click SettingsButton; Change TurnTimeInput "90"; Click UpdateButton]
      app =
    Some ([],
          {| appSettings :=
               {| turnTime := 90; guessTime := 30; specialTurnTime := 45 |};
             appTimer := {| isRunning := false; currentTime := 90;
                            phase := turn; isFinished := false;
                            mode := regular; currentWord := 1 |};
             showSettings := true |}).
Proof. reflexivity. Qed.

(** ** Pause *)

(** C9. Pausing twice is pausing once, and pausing only clears the running
    flag. *)
Theorem C9_pause_idempotent :
  forall t : TimerState,
    pauseTimer (pauseTimer t) = pauseTimer t
    /\ isRunning (pauseTimer t) = false
    /\ isFinished (pauseTimer t) = isFinished t
    /\ currentTime (pauseTimer t) = currentTime t
    /\ phase (pauseTimer t) = phase t
    /\ mode (pauseTimer t) = mode t
    /\ currentWord (pauseTimer t) = currentWord t.
Proof. intros t. repeat split; reflexivity. Qed.

(** ** Who changes the mode *)

(** C10. The tick and the start, pause, reset, next-word and update
    handlers return a state in the mode of the state they update; the mode
    toggle is the only handler that changes it. *)
Theorem C10_mode_changed_only_by_toggle :
  forall (settings : TimerSettings) (timer prev : TimerState),
    mode (snd (tick settings prev)) = mode prev
    /\ mode (startTimer prev) = mode prev
    /\ mode (pauseTimer prev) = mode prev
    /\ mode (resetTimer settings timer prev) = mode prev
    /\ mode (nextWord settings timer prev) = mode prev
    /\ mode (updateTimerToSettings settings timer prev) = mode prev
    /\ (forall c : Command,
           c <> CToggleMode -> mode (apply settings c prev) = mode prev)
    /\ mode (apply settings CToggleMode prev) <> mode prev.
Proof.
  intros settings timer prev.
  split; [apply tick_mode|].
  repeat (split; [reflexivity|]).
  split.
  - intros c Hc. destruct c; try reflexivity; [apply tick_mode | congruence].
  - cbn [apply]. rewrite toggleMode_effect. apply flip_changes.
Qed.

Lemma C10_witness :
  mode (apply initialSettings CReset initialTimer) = mode initialTimer.
Proof.
  apply (proj1 (proj2 (proj2 (proj2 (proj2 (proj2 (proj2
          (C10_mode_changed_only_by_toggle
             initialSettings initialTimer initialTimer)))))))).
  discriminate.
Defined.

(** ** The state invariant *)

(** Splits an invariant goal and closes the arithmetic and the flag
    components. *)
Ltac close_Inv :=
  unfold Inv; cbn;
  repeat match goal with
         | |- _ /\ _ => split
         | |- ~ _ => let H := fresh in intros [H ?]; try congruence
         end;
  try lia.

Lemma Inv_initialTimer : Inv initialTimer.
Proof. unfold initialTimer. close_Inv. Qed.

(** One enabled command keeps the invariant when no duration of the
    settings is negative. *)
Lemma apply_preserves_Inv (settings : TimerSettings) (c : Command)
  (t : TimerState) :
  nonNegative settings ->
  Inv t ->
  enabled c t = true ->
  Inv (apply settings c t).
Proof.
  intros (Htt & Hgt & Hst) (Hct & Hrf & Hw) Hen.
  destruct c; cbn [apply enabled] in *.
  - (* tick *)
    unfold intervalArmed in Hen. apply andb_prop in Hen as [Hrun Hpos].
    apply Z.ltb_lt in Hpos.
    destruct (Z.eq_dec (currentTime t) 1) as [E1 | N1].
    + rewrite (tick_state_zero settings t E1).
      destruct (mode t), (phase t); close_Inv.
      apply Hrf. now split.
    + rewrite tick_state_not_zero by lia. close_Inv.
      apply Hrf. now split.
  - unfold startTimer. close_Inv.
  - unfold pauseTimer. close_Inv.
  - unfold resetTimer. close_Inv. destruct (mode t); lia.
  - unfold nextWord. close_Inv;
      destruct (Z.ltb_spec (currentWord t) 5); lia.
  - rewrite toggleMode_effect. close_Inv. destruct (mode t); cbn; lia.
  - unfold updateTimerToSettings. close_Inv.
    destruct (mode t), (phase t); lia.
Qed.

(** Every state a session reaches from the initial one satisfies the
    invariant, when the settings in force are never negative. *)
Lemma applyAll_preserves_Inv (cs : list (TimerSettings * Command)) :
  forall t t' : TimerState,
    Forall (fun sc => nonNegative (fst sc)) cs ->
    Inv t ->
    applyAll cs t = Some t' ->
    Inv t'.
Proof.
  induction cs as [|[settings c] rest IH]; intros t t' Hall Hi Hrun.
  - cbn in Hrun. now inversion Hrun; subst.
  - cbn [applyAll] in Hrun. inversion Hall as [|? ? Hs Hrest]; subst.
    destruct (enabled c t) eqn:He; [|discriminate].
    apply (IH (apply settings c t) t' Hrest); [|exact Hrun].
    now apply apply_preserves_Inv.
Qed.

(** Scenarios 2 and 3 of the specification, run on the model. *)
Example scenario_guess_phase_expiry :
  ticks (60 + 30) initialSettings (startTimer initialTimer) =
    Some {| isRunning := false; currentTime := 60; phase := turn;
            isFinished := true; mode := regular; currentWord := 1 |}.
Proof. vm_compute. reflexivity. Qed.

Example scenario_special_word :
  let special0 := toggleMode initialSettings initialTimer initialTimer in
  let ended :=
    {| isRunning := false; currentTime := 45; phase := turn;
       isFinished := true; mode := special; currentWord := 1 |} in
  ticks 45 initialSettings (startTimer special0) = Some ended
  /\ nextWord initialSettings ended ended =
       {| isRunning := false; currentTime := 45; phase := turn;
          isFinished := false; mode := special; currentWord := 2 |}.
Proof. vm_compute. split; reflexivity. Qed.

(** C4, as stated, fails: the settings are whatever the inputs stored, and
    a negative turn time reaches the clock.  From the initial screen, open
    the panel, enter -5 as turn time and press the update button: the clock
    shows -5. *)
Lemma C4_counterexample :
  Inv initialTimer
  /\ exists app : App,
       run [Click SettingsButton; Change TurnTimeInput "-5";
            Click UpdateButton] initialApp = Some ([], app)
       /\ appTimer app =
            apply (appSettings app) CApplySettings initialTimer
       /\ currentTime (appTimer app) = -5
       /\ ~ Inv (appTimer app).
Proof.
  split; [apply Inv_initialTimer|].
  eexists. split; [reflexivity|].
  split; [reflexivity|]. split; [reflexivity|].
  intros [H _]. exact (H eq_refl).
Qed.

(** C4, amended.  The initial state satisfies the invariant, and every
    command (the tick only when the interval is armed) keeps it, provided
    the three durations of the settings in force are not negative. *)
Theorem C4_invariant_preserved :
  forall settings : TimerSettings,
    nonNegative settings ->
    Inv initialTimer
    /\ forall (c : Command) (t : TimerState),
         Inv t -> enabled c t = true -> Inv (apply settings c t).
Proof.
  intros settings Hs. split; [apply Inv_initialTimer|].
  intros c t Hi He. now apply apply_preserves_Inv.
Qed.

Lemma C4_witness :
  Inv (apply initialSettings CTick (startTimer initialTimer)).
Proof.
  assert (Hs : nonNegative initialSettings)
    by (unfold nonNegative; cbn; lia).
  destruct (C4_invariant_preserved initialSettings Hs) as [H0 Hstep].
  apply Hstep; [|reflexivity].
  apply (Hstep CStart initialTimer H0 eq_refl).
Defined.

(** ** Settings inputs *)

Example parseInt_examples :
  parseInt "90" = Some 90
  /\ parseInt "  42px" = Some 42
  /\ parseInt "-5" = Some (-5)
  /\ parseInt "+7.9" = Some 7
  /\ parseInt "1e3" = Some 1
  /\ parseInt "0x1F" = Some 31
  /\ parseInt "007" = Some 7
  /\ parseInt "" = None
  /\ parseInt "abc" = None
  /\ parseInt "-" = None
  /\ parseInt ".5" = None.
Proof. repeat split; reflexivity. Qed.

(** Evaluates the digit test on the literal character in the goal. *)
Ltac eval_radixDigit :=
  match goal with
  | |- context [radixDigit 10 ?c] =>
      let v := eval vm_compute in (radixDigit 10 c) in
      change (radixDigit 10 c) with v; cbv iota
  end.

(** Reading a decimal numeral digit by digit gives back its value. *)
Lemma parseDigits_after_positive (d : uint) :
  forall q : positive,
    parseDigits 10 (Some (Z.pos q)) (NilEmpty.string_of_uint d) =
      Some (Z.pos (Pos.of_uint_acc d q)).
Proof.
  induction d; intros q; cbn [NilEmpty.string_of_uint Pos.of_uint_acc];
    [reflexivity | ..];
    cbn [parseDigits]; eval_radixDigit;
    rewrite <- IHd; do 2 f_equal; lia.
Qed.

Lemma parseDigits_after_zero (d : uint) :
  parseDigits 10 (Some 0) (NilEmpty.string_of_uint d) =
    Some (Z.of_uint d).
Proof.
  induction d; cbn [NilEmpty.string_of_uint];
    [reflexivity | ..];
    cbn [parseDigits]; eval_radixDigit;
    [exact IHd | ..];
    unfold Z.of_uint; cbn [Pos.of_uint Z.of_N];
    rewrite <- parseDigits_after_positive; reflexivity.
Qed.

Lemma parseDigits_numeral (d : uint) :
  d <> Nil ->
  parseDigits 10 None (NilEmpty.string_of_uint d) = Some (Z.of_uint d).
Proof.
  intros Hd.
  destruct d; [congruence | ..];
    rewrite <- parseDigits_after_zero;
    cbn [NilEmpty.string_of_uint parseDigits]; eval_radixDigit;
    reflexivity.
Qed.

Lemma readRadix_numeral (d : uint) :
  readRadix (NilEmpty.string_of_uint d) = (10, NilEmpty.string_of_uint d).
Proof. destruct d; try reflexivity. destruct d; reflexivity. Qed.

Lemma trimStart_readSign_numeral (d : uint) :
  readSign (trimStart (NilEmpty.string_of_uint d)) =
    (1, NilEmpty.string_of_uint d).
Proof. destruct d; reflexivity. Qed.

(** The model of [parseInt] reads back an integer from its decimal
    numeral. *)
Lemma parseInt_numeral (n : Z) : parseInt (numeral n) = Some n.
Proof.
  destruct n as [|p|p]; [reflexivity | |].
  - unfold numeral, parseInt. cbn [Z.to_int NilEmpty.string_of_int].
    rewrite trimStart_readSign_numeral. cbv beta iota.
    rewrite readRadix_numeral. cbv beta iota.
    rewrite parseDigits_numeral by apply Unsigned.to_uint_nonnil.
    unfold Z.of_uint. rewrite DecimalPos.Unsigned.of_to. reflexivity.
  - unfold numeral, parseInt. cbn [Z.to_int NilEmpty.string_of_int].
    change (readSign (trimStart
              (String "-" (NilEmpty.string_of_uint (Pos.to_uint p)))))
      with (-1, NilEmpty.string_of_uint (Pos.to_uint p)).
    cbv beta iota. rewrite readRadix_numeral. cbv beta iota.
    rewrite parseDigits_numeral by apply Unsigned.to_uint_nonnil.
    unfold Z.of_uint. rewrite DecimalPos.Unsigned.of_to. reflexivity.
Qed.

Lemma onChange_other_fields (f g : Field) (value : string)
  (prev : TimerSettings) :
  g <> f -> fieldValue g (onChange f value prev) = fieldValue g prev.
Proof. destruct f, g; intros H; try reflexivity; congruence. Qed.

Lemma onChange_own_field (f : Field) (value : string)
  (prev : TimerSettings) :
  fieldValue f (onChange f value prev) =
    orDefault (parseInt value) (fallback f).
Proof. destruct f; reflexivity. Qed.

(** C5, as stated, fails on both counts.  The default settings are within
    the declared ranges; entering 500 as turn time stores 500, above the
    maximum of 300.  And with a turn time of 90 in force, text that is not a
    number stores 60, not the 90 that was there. *)
Lemma C5_counterexample :
  (settingsWithinAttrs initialSettings = true
   /\ turnTime (onChange TurnTimeInput "500" initialSettings) = 500
   /\ withinAttrs TurnTimeInput 500 = false
   /\ settingsWithinAttrs (onChange TurnTimeInput "500" initialSettings)
      = false)
  /\ (let prev :=
        {| turnTime := 90; guessTime := 30; specialTurnTime := 45 |} in
      settingsWithinAttrs prev = true
      /\ parseInt "abc" = None
      /\ turnTime (onChange TurnTimeInput "abc" prev) = 60
      /\ turnTime (onChange TurnTimeInput "abc" prev) <> turnTime prev).
Proof.
  split; [repeat split; reflexivity|].
  cbv zeta. split; [reflexivity|]. split; [reflexivity|].
  split; [reflexivity | discriminate].
Qed.

(** C5, amended.  An edit of one input never fails and touches that setting
    only.  Text with no leading integer, or that reads as zero, stores the
    input's fixed default (60, 30 or 45), not the value held before.  The
    declared range is not enforced: a non-zero integer read from the text is
    stored as read, inside the range or not; so the decimal numeral of a
    non-zero integer stores that integer.  Integers here are safe integers,
    which [parseInt] reads exactly. *)
Theorem C5_settings_edit :
  forall (f : Field) (value : string) (prev : TimerSettings),
    let next := onChange f value prev in
    (forall g : Field, g <> f -> fieldValue g next = fieldValue g prev)
    /\ (parseInt value = None \/ parseInt value = Some 0 ->
        fieldValue f next = fallback f)
    /\ (forall n : Z,
           parseInt value = Some n ->
           n <> 0 ->
           isSafeInteger n = true ->
           fieldValue f next = n)
    /\ (forall n : Z,
           n <> 0 ->
           isSafeInteger n = true ->
           fieldValue f (onChange f (numeral n) prev) = n)
    /\ fieldValue f (onChange f (numeral 0) prev) = fallback f.
Proof.
  intros f value prev next. subst next.
  split; [intros g Hg; now apply onChange_other_fields|].
  rewrite !onChange_own_field.
  assert (Hstore : forall n d, n <> 0 -> orDefault (Some n) d = n).
  { intros n d Hn. cbn. destruct (Z.eqb_spec n 0); congruence. }
  split; [intros [-> | ->]; reflexivity|].
  split; [intros n -> Hn _; now apply Hstore|].
  split.
  - intros n Hn _. rewrite onChange_own_field, parseInt_numeral.
    now apply Hstore.
  - rewrite parseInt_numeral. reflexivity.
Qed.

Lemma C5_witness :
  fieldValue GuessTimeInput
    (onChange GuessTimeInput (numeral 1000) initialSettings) = 1000
  /\ fieldValue GuessTimeInput
       (onChange GuessTimeInput "1000" initialSettings) = 1000
  /\ withinAttrs GuessTimeInput 1000 = false
  /\ fieldValue GuessTimeInput
       (onChange GuessTimeInput "abc" initialSettings) = 30
  /\ fieldValue TurnTimeInput
       (onChange GuessTimeInput "abc" initialSettings) = 60.
Proof.
  pose proof (C5_settings_edit GuessTimeInput "1000" initialSettings)
    as (_ & _ & Hparsed & Hnum & _).
  pose proof (C5_settings_edit GuessTimeInput "abc" initialSettings)
    as (Hother & Hfall & _).
  split; [apply Hnum; [discriminate | reflexivity]|].
  split; [apply Hparsed; [reflexivity | discriminate | reflexivity]|].
  split; [reflexivity|].
  split; [apply Hfall; left; reflexivity|].
  apply (Hother TurnTimeInput). discriminate.
Defined.

(** ** A countdown and its cues *)

Lemma tick_not_zero (settings : TimerSettings) (prev : TimerState) :
  1 < currentTime prev ->
  tick settings prev =
    ((if currentTime prev - 1 <=? 5 then [beep] else []),
     withTime prev (currentTime prev - 1)).
Proof.
  intros H. unfold tick.
  destruct (Z.eqb_spec (currentTime prev - 1) 0) as [E | _]; [lia|].
  replace (0 <? currentTime prev - 1) with true
    by (symmetry; apply Z.ltb_lt; lia).
  now rewrite andb_true_r.
Qed.


(** The state part of [ticksLog] is [ticks]. *)
Lemma ticksLog_state (settings : TimerSettings) (n : nat) :
  forall t : TimerState,
    ticks n settings t = option_map snd (ticksLog n settings t).
Proof.
  induction n as [|n IH]; intros t; cbn [ticks ticksLog]; [reflexivity|].
  destruct (intervalArmed t); [|reflexivity].
  rewrite IH. destruct (tick settings t) as [out t1]. cbn [snd].
  destruct (ticksLog n settings t1) as [[out1 t2]|]; reflexivity.
Qed.







(** X3. When the turn phase expires, the guess phase can tick only if the
    guess time is positive.  With a guess time that is not positive the
    timer is left running with the interval not armed: no tick can follow,
    and the timer stays in that state until a command is issued. *)
Theorem guess_phase_ticks_iff_positive_guess_time :
  forall (settings : TimerSettings) (prev : TimerState),
    mode prev = regular ->
    phase prev = turn ->
    isRunning prev = true ->
    currentTime prev = 1 ->
    let next := snd (tick settings prev) in
    isRunning next = true
    /\ (intervalArmed next = true <-> 0 < guessTime settings)
    /\ (guessTime settings <= 0 ->
        forall n : nat, ticks (S n) settings next = None).
Proof.
  intros settings prev Hm Hp Hrun Ht next. subst next.
  rewrite (tick_state_zero settings prev Ht), Hm, Hp.
  unfold intervalArmed. cbn [isRunning currentTime ticks]. rewrite Hrun.
  cbn [andb]. split; [reflexivity|]. split.
  - apply Z.ltb_lt.
  - intros Hle n. unfold intervalArmed. cbn [isRunning currentTime andb].
    now replace (0 <? guessTime settings) with false
      by (symmetry; apply Z.ltb_ge; lia).
Qed.

Lemma guess_phase_ticks_iff_positive_guess_time_witness :
  let settings :=
    onChange GuessTimeInput "-5" initialSettings in
  let prev := withTime (startTimer initialTimer) 1 in
  isRunning (snd (tick settings prev)) = true
  /\ intervalArmed (snd (tick settings prev)) = false
  /\ ticks 1 settings (snd (tick settings prev)) = None.
Proof.
  intros settings prev.
  destruct (guess_phase_ticks_iff_positive_guess_time settings prev
              eq_refl eq_refl eq_refl eq_refl) as (Hr & _ & Hstuck).
  split; [exact Hr|]. split; [reflexivity|].
  apply Hstuck. vm_compute. discriminate.
Defined.

(** ** The special mode keeps the turn phase *)

Lemma apply_keeps_specialHoldsTurn (settings : TimerSettings) (c : Command)
  (t : TimerState) :
  specialHoldsTurn t -> specialHoldsTurn (apply settings c t).
Proof.
  unfold specialHoldsTurn. intros H.
  destruct c; cbn [apply].
  - (* tick *)
    destruct (Z.eq_dec (currentTime t) 1) as [E1 | N1].
    + rewrite (tick_state_zero settings t E1).
      destruct (mode t) eqn:Em; [destruct (phase t)|]; cbn; intros Hs;
        first [discriminate | auto].
    + rewrite tick_state_not_zero by lia. exact H.
  - exact H.
  - exact H.
  - reflexivity.
  - reflexivity.
  - reflexivity.
  - exact H.
Qed.

(** X4. In every state a session reaches from the initial one, special mode
    goes with the turn phase: the guess phase is entered in regular mode
    only, and the mode toggle resets the phase.  This needs no assumption
    on the settings. *)
Theorem special_mode_is_always_in_turn_phase :
  forall (cs : list (TimerSettings * Command)) (reached : TimerState),
    applyAll cs initialTimer = Some reached ->
    mode reached = special ->
    phase reached = turn.
Proof.
  intros cs reached Hrun.
  change (specialHoldsTurn reached).
  assert (H0 : specialHoldsTurn initialTimer) by (intros H; discriminate).
  revert Hrun H0. generalize initialTimer as t.
  induction cs as [|[settings c] rest IH]; intros t Hrun H0.
  - cbn in Hrun. now inversion Hrun; subst.
  - cbn [applyAll] in Hrun.
    destruct (enabled c t); [|discriminate].
    apply (IH _ Hrun). now apply apply_keeps_specialHoldsTurn.
Qed.

Lemma special_mode_is_always_in_turn_phase_witness :
  phase (nextWord initialSettings
           (toggleMode initialSettings initialTimer initialTimer)
           (toggleMode initialSettings initialTimer initialTimer)) = turn.
Proof.
  apply (special_mode_is_always_in_turn_phase
           [(initialSettings, CToggleMode); (initialSettings, CNextWord)]);
    reflexivity.
Defined.

(** ** The word index *)

(** X5. Pressing next-word [k] times moves a word index [w] between 1 and 5
    to [(w - 1 + k) mod 5 + 1]: the index cycles through 1..5 with period
    five, so five presses show the same word again. *)
Theorem next_word_cycles_with_period_five :
  forall (settings : TimerSettings) (t : TimerState) (k : nat),
    1 <= currentWord t <= 5 ->
    let press := fun x : TimerState => nextWord settings x x in
    currentWord (Nat.iter k press t)
      = (currentWord t - 1 + Z.of_nat k) mod 5 + 1
    /\ currentWord (Nat.iter 5 press t) = currentWord t.
Proof.
  intros settings t k Hw press.
  assert (Hk : forall n : nat,
             currentWord (Nat.iter n press t)
               = (currentWord t - 1 + Z.of_nat n) mod 5 + 1).
  { induction n as [|n IH].
    - cbn [Nat.iter nat_rect]. rewrite Z.add_0_r, Z.mod_small; lia.
    - cbn [Nat.iter nat_rect]. fold (Nat.iter n press t).
      unfold press at 1. rewrite nextWord_effect.
      cbn [currentWord]. rewrite IH.
      replace (currentWord t - 1 + Z.of_nat (S n))
        with ((currentWord t - 1 + Z.of_nat n) + 1) by lia.
      set (a := currentWord t - 1 + Z.of_nat n).
      assert (Ha : 0 <= a) by (subst a; lia).
      pose proof (Z.mod_pos_bound a 5 ltac:(lia)) as Hb.
      pose proof (Z.div_mod a 5 ltac:(lia)) as Hd.
      destruct (Z.ltb_spec (a mod 5 + 1) 5) as [Hlt | Hge].
      + replace ((a + 1) mod 5) with (a mod 5 + 1); [reflexivity|].
        apply (Z.mod_unique_pos (a + 1) 5 (a / 5)); lia.
      + replace ((a + 1) mod 5) with 0; [reflexivity|].
        apply (Z.mod_unique_pos (a + 1) 5 (a / 5 + 1)); lia. }
  split; [apply Hk|].
  rewrite Hk. change (Z.of_nat 5) with (1 * 5).
  rewrite Z.mod_add by lia. rewrite Z.mod_small; lia.
Qed.

Lemma next_word_cycles_with_period_five_witness :
  currentWord
    (Nat.iter 7 (fun x => nextWord initialSettings x x) initialTimer) = 3.
Proof.
  assert (Hw : 1 <= currentWord initialTimer <= 5) by (cbn; lia).
  exact (proj1 (next_word_cycles_with_period_five
                  initialSettings initialTimer 7 Hw)).
Defined.

(** ** Colour of the clock *)

(** X6. The clock is shown in the danger colour at 5 seconds and below, in
    the warning colour from 6 to 10, in the active colour above.  For a tick
    that does not bring the clock to zero, the warning beep and the danger
    colour go together: the tick requests the beep exactly when the state it
    leaves is shown in the danger colour. *)
Theorem warning_beep_matches_danger_colour :
  forall (settings : TimerSettings) (prev : TimerState),
    intervalArmed prev = true ->
    currentTime prev <> 1 ->
    let out := fst (tick settings prev) in
    let next := snd (tick settings prev) in
    (getTimerColor next = text_timer_danger <-> out = [beep])
    /\ (getTimerColor next <> text_timer_danger <-> out = [])
    /\ (getTimerColor next = text_timer_warning <->
        7 <= currentTime prev <= 11)
    /\ (getTimerColor next = text_timer_active <-> 12 <= currentTime prev).
Proof.
  intros settings prev Harmed Hne out next. subst out next.
  unfold intervalArmed in Harmed. apply andb_prop in Harmed as [_ Hpos].
  apply Z.ltb_lt in Hpos.
  rewrite tick_not_zero by lia. cbn [fst snd].
  unfold getTimerColor. cbn [withTime currentTime].
  destruct (Z.leb_spec (currentTime prev - 1) 5) as [L5 | G5].
  - repeat split; intros; try reflexivity; try discriminate;
      try congruence; try lia.
  - destruct (Z.leb_spec (currentTime prev - 1) 10) as [L10 | G10];
      repeat split; intros; try reflexivity; try discriminate;
      try congruence; try lia.
Qed.

Lemma warning_beep_matches_danger_colour_witness :
  let prev := withTime (startTimer initialTimer) 6 in
  getTimerColor prev = text_timer_warning
  /\ getTimerColor (snd (tick initialSettings prev)) = text_timer_danger
  /\ fst (tick initialSettings prev) = [beep].
Proof.
  intros prev.
  assert (Hne : currentTime prev <> 1) by (cbn; lia).
  destruct (warning_beep_matches_danger_colour initialSettings prev
              eq_refl Hne) as (Hd & _).
  split; [reflexivity|]. split; [reflexivity|].
  apply Hd. reflexivity.
Defined.

(** ** The main button and reset *)

(** X7. The main button pauses a running timer and starts a stopped one, so
    one press flips the running flag and leaves a state that is not both
    running and finished.  Two presses give back the state they started
    from with the finished flag cleared; settings and panel are not
    touched. *)
Theorem main_button_toggles_running :
  forall app : App,
    let once := onClick MainActionButton app in
    let twice := onClick MainActionButton once in
    isRunning (appTimer once) = negb (isRunning (appTimer app))
    /\ ~ (isRunning (appTimer once) = true
          /\ isFinished (appTimer once) = true)
    /\ appTimer twice =
         {| isRunning := isRunning (appTimer app);
            currentTime := currentTime (appTimer app);
            phase := phase (appTimer app);
            isFinished := false;
            mode := mode (appTimer app);
            currentWord := currentWord (appTimer app) |}
    /\ appSettings twice = appSettings app
    /\ showSettings twice = showSettings app.
Proof.
  intros [settings [r ct ph f m w] panel]. cbn.
  destruct r; cbn; repeat split; try reflexivity; intros [? ?]; discriminate.
Qed.

(** X8. Reset keeps nothing of the state but the mode and the word: after
    a tick, start, pause, update or an earlier reset, under any settings, it
    gives the state it would have given before; in particular it is
    idempotent. *)
Theorem reset_forgets_all_but_mode_and_word :
  forall (settings earlier : TimerSettings) (c : Command) (t : TimerState),
    c <> CToggleMode ->
    c <> CNextWord ->
    let t' := apply earlier c t in
    resetTimer settings t' t' = resetTimer settings t t.
Proof.
  intros settings earlier c t Hc1 Hc2 t'. subst t'.
  assert (Hm : mode (apply earlier c t) = mode t).
  { destruct c; try reflexivity; try congruence. apply tick_mode. }
  assert (Hw : currentWord (apply earlier c t) = currentWord t).
  { destruct c; try reflexivity; try congruence. cbn [apply].
    unfold tick. destruct (currentTime t - 1 =? 0); [|reflexivity].
    destruct (mode t); [destruct (phase t)|]; reflexivity. }
  unfold resetTimer. now rewrite Hm, Hw.
Qed.

Lemma reset_forgets_all_but_mode_and_word_witness :
  let t := withTime (startTimer initialTimer) 1 in
  resetTimer initialSettings (snd (tick initialSettings t))
    (snd (tick initialSettings t))
  = resetTimer initialSettings t t.
Proof.
  intros t.
  apply (reset_forgets_all_but_mode_and_word
           initialSettings initialSettings CTick t); discriminate.
Defined.

(** ** More on the settings inputs *)

Lemma orDefault_nonzero (x : option Z) (d : Z) :
  d <> 0 -> orDefault x d <> 0.
Proof.
  intros Hd. destruct x as [n|]; cbn; [|exact Hd].
  destruct (Z.eqb_spec n 0); assumption.
Qed.

Lemma fallback_nonzero (f : Field) : fallback f <> 0.
Proof. destruct f; discriminate. Qed.

(** X9. No edit stores zero: whatever is typed, the edited setting is not
    zero afterwards, and starting from the initial settings no sequence of
    edits makes any of the three durations zero. *)
Theorem settings_are_never_zero :
  forall (edits : list (Field * string)) (f : Field) (value : string)
         (prev : TimerSettings),
    fieldValue f (onChange f value prev) <> 0
    /\ let stored :=
         fold_left (fun s e => onChange (fst e) (snd e) s)
           edits initialSettings in
       forall g : Field, fieldValue g stored <> 0.
Proof.
  intros edits f value prev. split.
  - rewrite onChange_own_field.
    apply orDefault_nonzero, fallback_nonzero.
  - cbv zeta.
    assert (H0 : forall g, fieldValue g initialSettings <> 0)
      by (intros g; destruct g; discriminate).
    revert H0. generalize initialSettings as s.
    induction edits as [|[f' v'] rest IH]; intros s H0 g; cbn [fold_left].
    + apply H0.
    + apply IH. intros g'. cbn [fst snd].
      destruct (Field_eq_dec g' f') as [-> | Hne].
      * rewrite onChange_own_field.
        apply orDefault_nonzero, fallback_nonzero.
      * rewrite onChange_other_fields by assumption. apply H0.
Qed.

(** X10. Edits of the same input overwrite each other, the last one
    winning; edits of different inputs commute. *)
Theorem settings_edits_compose :
  forall (f g : Field) (v w : string) (s : TimerSettings),
    onChange f w (onChange f v s) = onChange f w s
    /\ (f <> g ->
        onChange f v (onChange g w s) = onChange g w (onChange f v s)).
Proof.
  intros f g v w s. split.
  - destruct f; reflexivity.
  - intros Hne. destruct f, g; try reflexivity; congruence.
Qed.

Lemma settings_edits_compose_witness :
  onChange TurnTimeInput "90" (onChange GuessTimeInput "20" initialSettings)
  = onChange GuessTimeInput "20" (onChange TurnTimeInput "90" initialSettings).
Proof.
  apply (proj2 (settings_edits_compose TurnTimeInput GuessTimeInput
                  "90" "20" initialSettings)).
  discriminate.
Defined.

(** X11. Each input displays its setting; typing back the text an input
    displays changes nothing, for a setting that is a safe integer other
    than zero. *)
Theorem retyping_displayed_value_is_identity :
  forall (f : Field) (s : TimerSettings),
    fieldValue f s <> 0 ->
    isSafeInteger (fieldValue f s) = true ->
    onChange f (toString (fieldValue f s)) s = s.
Proof.
  intros f s Hnz _.
  assert (H : orDefault (parseInt (toString (fieldValue f s))) (fallback f)
              = fieldValue f s).
  { unfold toString. rewrite parseInt_numeral. cbn.
    destruct (Z.eqb_spec (fieldValue f s) 0); congruence. }
  destruct s as [a b c].
  destruct f; cbn in *;
    unfold onChangeTurnTime, onChangeGuessTime, onChangeSpecialTurnTime;
    cbn; now rewrite H.
Qed.

Lemma retyping_displayed_value_is_identity_witness :
  toString (fieldValue GuessTimeInput initialSettings) = "30"%string
  /\ onChange GuessTimeInput "30" initialSettings = initialSettings.
Proof.
  split; [reflexivity|].
  apply (retyping_displayed_value_is_identity GuessTimeInput initialSettings);
    [discriminate | reflexivity].
Defined.

(** ** The clock text *)

Lemma length_append (u v : string) :
  String.length (u ++ v) = (String.length u + String.length v)%nat.
Proof. induction u as [|c u IH]; cbn; [reflexivity | now rewrite IH]. Qed.

Lemma append_same_length_inj (u v x y : string) :
  String.length u = String.length v ->
  (u ++ x)%string = (v ++ y)%string ->
  u = v /\ x = y.
Proof.
  revert v. induction u as [|c u IH]; intros [|d v] Hlen Heq;
    cbn in *; try discriminate.
  - now split.
  - injection Heq as -> Heq. injection Hlen as Hlen.
    destruct (IH v Hlen Heq) as [-> ->]. now split.
Qed.

Lemma numeral_inj (a b : Z) : numeral a = numeral b -> a = b.
Proof.
  intros H. pose proof (parseInt_numeral a) as Ha.
  rewrite H, parseInt_numeral in Ha. now injection Ha.
Qed.

(** Below 60, every case is checked by evaluation. *)
Lemma below_sixty (P : Z -> Prop) :
  (forall n : nat, (n < 60)%nat -> P (Z.of_nat n)) ->
  forall r : Z, 0 <= r < 60 -> P r.
Proof.
  intros H r Hr. rewrite <- (Z2Nat.id r) by lia. apply H. lia.
Qed.

Ltac by_cases_below_sixty :=
  apply below_sixty; intros n Hn;
  do 60 (destruct n as [|n]; [vm_compute; reflexivity|]);
  exfalso; lia.

Lemma seconds_two_digits :
  forall r : Z, 0 <= r < 60 ->
    padStart 2 "0" (toString r)
      = (toString (r / 10) ++ toString (r mod 10))%string.
Proof. by_cases_below_sixty. Qed.

Lemma seconds_read_back :
  forall r : Z, 0 <= r < 60 ->
    parseInt (padStart 2 "0" (toString r)) = Some r.
Proof. by_cases_below_sixty. Qed.

Lemma seconds_length :
  forall r : Z, 0 <= r < 60 ->
    String.length (padStart 2 "0" (toString r)) = 2%nat.
Proof. by_cases_below_sixty. Qed.

(** The text computed from the quotient and the remainder, for a time that
    is not negative. *)
Lemma formatTime_nonneg (seconds : Z) :
  0 <= seconds ->
  formatTime seconds
    = (toString (seconds / 60) ++ ":"
         ++ toString ((seconds mod 60) / 10)
         ++ toString ((seconds mod 60) mod 10))%string
  /\ String.length (formatTime seconds)
     = (String.length (toString (seconds / 60)) + 3)%nat.
Proof.
  intros Hs.
  pose proof (Z.mod_pos_bound seconds 60 ltac:(lia)) as Hb.
  unfold formatTime. rewrite Z.rem_mod_nonneg by lia. split.
  - now rewrite seconds_two_digits by exact Hb.
  - rewrite !length_append, seconds_length by exact Hb.
    cbn [String.length]. lia.
Qed.

(** X12. For a time that is a safe integer and not negative, the clock text
    is the minutes, [floor (seconds / 60)], without padding, a colon, and
    the seconds [seconds mod 60] on exactly two digits. *)
Theorem formatTime_shape :
  forall seconds : Z,
    0 <= seconds ->
    isSafeInteger seconds = true ->
    formatTime seconds
      = (toString (seconds / 60) ++ ":"
           ++ toString ((seconds mod 60) / 10)
           ++ toString ((seconds mod 60) mod 10))%string
    /\ String.length (formatTime seconds)
       = (String.length (toString (seconds / 60)) + 3)%nat.
Proof. intros seconds Hs _. now apply formatTime_nonneg. Qed.

Lemma formatTime_shape_witness :
  formatTime 605 = "10:05"%string /\ formatTime 59 = "0:59"%string.
Proof.
  assert (H1 : 0 <= 605) by lia. assert (H2 : 0 <= 59) by lia.
  split.
  - exact (proj1 (formatTime_shape 605 H1 eq_refl)).
  - exact (proj1 (formatTime_shape 59 H2 eq_refl)).
Defined.

(** X13. Two different times, safe integers and not negative, are never
    shown as the same text. *)
Theorem formatTime_injective :
  forall a b : Z,
    0 <= a -> 0 <= b ->
    isSafeInteger a = true -> isSafeInteger b = true ->
    a <> b ->
    formatTime a <> formatTime b.
Proof.
  intros a b Ha Hb _ _ Hne Heq. apply Hne.
  pose proof (Z.mod_pos_bound a 60 ltac:(lia)) as Hra.
  pose proof (Z.mod_pos_bound b 60 ltac:(lia)) as Hrb.
  assert (Hlen : String.length (formatTime a) = String.length (formatTime b))
    by now rewrite Heq.
  rewrite (proj2 (formatTime_nonneg a Ha)),
          (proj2 (formatTime_nonneg b Hb)) in Hlen.
  unfold formatTime in Heq. rewrite !Z.rem_mod_nonneg in Heq by lia.
  apply append_same_length_inj in Heq as [Hm Hrest]; [|lia].
  apply numeral_inj in Hm.
  injection Hrest as Hsec.
  assert (Hr : Some (a mod 60) = Some (b mod 60)).
  { rewrite <- (seconds_read_back (a mod 60) Hra),
            <- (seconds_read_back (b mod 60) Hrb).
    now rewrite Hsec. }
  injection Hr as Hr.
  rewrite (Z.div_mod a 60), (Z.div_mod b 60) by lia.
  now rewrite Hm, Hr.
Qed.

Lemma formatTime_injective_witness :
  formatTime 119 <> formatTime 120
  /\ formatTime 119 = "1:59"%string
  /\ formatTime 120 = "2:00"%string.
Proof.
  split; [|split; reflexivity].
  apply (formatTime_injective 119 120);
    [lia | lia | reflexivity | reflexivity | lia].
Defined.

Lemma toString_negative_length (r : Z) :
  r < 0 -> (2 <= String.length (toString r))%nat.
Proof.
  intros Hr. destruct r as [|p|p]; try lia.
  unfold toString, numeral. cbn [Z.to_int NilEmpty.string_of_int].
  pose proof (Unsigned.to_uint_nonnil p) as Hnn.
  destruct (Pos.to_uint p); [congruence | ..]; cbn; lia.
Qed.

(** X14. A negative time, a safe integer whose remainder by 60 is not zero,
    is shown with the minutes rounded down and the seconds as the negative
    remainder, with its own minus sign and no padding; the two numbers
    shown do not add up to the time but to sixty seconds less. *)
Theorem formatTime_negative :
  forall seconds : Z,
    seconds < 0 ->
    isSafeInteger seconds = true ->
    Z.rem seconds 60 <> 0 ->
    formatTime seconds
      = (toString (seconds / 60) ++ ":" ++ toString (Z.rem seconds 60))%string
    /\ Z.rem seconds 60 < 0
    /\ 60 * (seconds / 60) + Z.rem seconds 60 = seconds - 60.
Proof.
  intros seconds Hneg _ Hrem.
  pose proof (Z.rem_bound_pos_neg seconds 60 ltac:(lia) ltac:(lia)) as Hb.
  pose proof (Z.quot_rem' seconds 60) as Hq.
  pose proof (Z.div_mod seconds 60 ltac:(lia)) as Hd.
  pose proof (Z.mod_pos_bound seconds 60 ltac:(lia)) as Hm.
  assert (Hr : Z.rem seconds 60 < 0) by lia.
  split; [|split; [exact Hr | lia]].
  unfold formatTime, padStart.
  pose proof (toString_negative_length _ Hr) as Hlen.
  now replace (2 <=? String.length (toString (Z.rem seconds 60)))%nat
    with true by (symmetry; apply Nat.leb_le; exact Hlen).
Qed.

Lemma formatTime_negative_witness :
  formatTime (-5) = "-1:-5"%string /\ 60 * (-1) + (-5) = -5 - 60.
Proof.
  assert (H1 : -5 < 0) by lia.
  assert (H2 : Z.rem (-5) 60 <> 0) by (cbn; lia).
  destruct (formatTime_negative (-5) H1 eq_refl H2) as (Hf & _ & Hsum).
  split; [exact Hf | exact Hsum].
Defined.

(** ** The interval effect *)

Lemma Deps_eqb_eq (a b : Deps) : Deps_eqb a b = true -> a = b.
Proof.
  destruct a as [r1 c1 p1 s1], b as [r2 c2 p2 s2]. unfold Deps_eqb. cbn.
  intros H. repeat (apply andb_prop in H as [H ?]).
  apply Bool.eqb_prop in H.
  match goal with E : (c1 =? c2) = true |- _ => apply Z.eqb_eq in E end.
  match goal with E : (s1 =? s2)%nat = true |- _ => apply Nat.eqb_eq in E end.
  assert (p1 = p2) by (destruct p1, p2; first [reflexivity | discriminate]).
  now subst.
Qed.

Lemma clearInterval_single (h : Handle) (s : TimerSettings) :
  clearInterval h [(h, s)] = [].
Proof. unfold clearInterval. cbn. now rewrite Pos.eqb_refl. Qed.

Lemma rtApp_effectCleanup (rt : Runtime) :
  rtApp (effectCleanup rt) = rtApp rt.
Proof. unfold effectCleanup. destruct (intervalRef rt); reflexivity. Qed.

Lemma rtApp_effectBody (rt : Runtime) : rtApp (effectBody rt) = rtApp rt.
Proof.
  unfold effectBody.
  destruct (intervalArmed (appTimer (rtApp rt))); [reflexivity|].
  destruct (intervalRef rt); reflexivity.
Qed.

Lemma depsOf_effectCleanup (rt : Runtime) :
  depsOf (effectCleanup rt) = depsOf rt.
Proof. unfold effectCleanup. destruct (intervalRef rt); reflexivity. Qed.

Lemma depsOf_effectBody (rt : Runtime) : depsOf (effectBody rt) = depsOf rt.
Proof.
  unfold effectBody.
  destruct (intervalArmed (appTimer (rtApp rt))); [reflexivity|].
  destruct (intervalRef rt); reflexivity.
Qed.

Lemma rtApp_commit (rt : Runtime) : rtApp (commit rt) = rtApp rt.
Proof.
  unfold commit.
  destruct (effectDeps rt) as [d|]; [destruct (Deps_eqb d (depsOf rt))|];
    cbn [withEffectDeps rtApp];
    now rewrite ?rtApp_effectBody, ?rtApp_effectCleanup.
Qed.

(** Clean-up followed by the body leaves the one interval the guard asks
    for, whether or not one was live before. *)
Lemma effect_rerun (rt : Runtime) :
  (intervalRef rt = None /\ liveIntervals rt = [])
  \/ (exists h s, intervalRef rt = Some h /\ liveIntervals rt = [(h, s)]) ->
  let rt' := effectBody (effectCleanup rt) in
  if intervalArmed (appTimer (rtApp rt)) then
    exists h : Handle,
      intervalRef rt' = Some h
      /\ liveIntervals rt' = [(h, appSettings (rtApp rt))]
  else intervalRef rt' = None /\ liveIntervals rt' = [].
Proof.
  destruct rt as [app stamp ref live next deps].
  cbn [intervalRef liveIntervals rtApp].
  intros [[-> ->] | (h & s & -> & ->)];
    unfold effectCleanup, effectBody;
    cbn [intervalRef liveIntervals rtApp nextHandle];
    rewrite ?clearInterval_single;
    destruct (intervalArmed (appTimer app));
    cbn [intervalRef liveIntervals rtApp nextHandle];
    first [ eexists; split; reflexivity | split; reflexivity ].
Qed.

(** A render that follows a state update puts the interval table in step
    again.  The settings object is the same when its stamp is. *)
Lemma commit_in_step (rt : Runtime) (app : App) (stamp : nat) :
  intervalsInStep rt ->
  (stamp = settingsStamp rt -> appSettings app = appSettings (rtApp rt)) ->
  intervalsInStep (commit (withApp rt app stamp)).
Proof.
  intros [Hdeps Htable] Hsame.
  unfold commit. cbn [withApp effectDeps]. rewrite Hdeps.
  destruct (Deps_eqb (depsOf rt) (depsOf (withApp rt app stamp))) eqn:E.
  - (* dependencies unchanged: the effect is skipped *)
    apply Deps_eqb_eq in E.
    injection E as Hr Hc Hp Hs.
    cbn [withApp rtApp settingsStamp] in Hr, Hc, Hp, Hs.
    symmetry in Hs. specialize (Hsame Hs).
    split.
    + cbn [withApp effectDeps]. rewrite Hdeps. f_equal.
      unfold depsOf. cbn [withApp rtApp settingsStamp]. congruence.
    + cbn [withApp rtApp intervalRef liveIntervals].
      unfold intervalArmed in *. rewrite <- Hr, <- Hc, Hsame. exact Htable.
  - (* clean-up, then body *)
    split.
    { cbn [withEffectDeps effectDeps]. f_equal.
      change (depsOf (withEffectDeps ?r ?d)) with (depsOf r).
      now rewrite depsOf_effectBody, depsOf_effectCleanup. }
    cbn [withEffectDeps rtApp intervalRef liveIntervals].
    rewrite rtApp_effectBody, rtApp_effectCleanup.
    apply (effect_rerun (withApp rt app stamp)).
    cbn [withApp intervalRef liveIntervals].
    destruct (intervalArmed (appTimer (rtApp rt))).
    + destruct Htable as (h & Href & Hlive). right. eauto.
    + left. exact Htable.
Qed.

Lemma mount_in_step : intervalsInStep mount.
Proof. split; [reflexivity|]. cbn. split; reflexivity. Qed.

Lemma onClick_keeps_settings (c : Control) (app : App) :
  appSettings (onClick c app) = appSettings app.
Proof.
  destruct c; cbn; try reflexivity.
Qed.

Lemma happen_in_step (x : Happening) (rt rt' : Runtime)
  (out : list Intent) :
  intervalsInStep rt ->
  happen x rt = Some (out, rt') ->
  intervalsInStep rt'.
Proof.
  intros Hin Hstep. destruct x as [[c | f value |] | h]; cbn [happen] in Hstep.
  - unfold dispatch in Hstep.
    destruct (rendered (rtApp rt) c); [|discriminate].
    injection Hstep as _ <-.
    apply commit_in_step; [exact Hin|]. intros _.
    apply onClick_keeps_settings.
  - unfold dispatch in Hstep.
    destruct (showSettings (rtApp rt)); [|discriminate].
    injection Hstep as _ <-.
    apply commit_in_step; [exact Hin|]. intros Habs. lia.
  - discriminate.
  - destruct (findInterval h (liveIntervals rt)) as [settings|];
      [|discriminate].
    destruct (tick settings (appTimer (rtApp rt))) as [o t].
    injection Hstep as _ <-.
    apply commit_in_step; [exact Hin|]. intros _. reflexivity.
Qed.

Lemma happenAll_in_step (xs : list Happening) :
  forall (rt rt' : Runtime) (out : list Intent),
    intervalsInStep rt ->
    happenAll xs rt = Some (out, rt') ->
    intervalsInStep rt'.
Proof.
  induction xs as [|x rest IH]; intros rt rt' out Hin Hrun.
  - cbn in Hrun. injection Hrun as _ <-. exact Hin.
  - cbn [happenAll] in Hrun.
    destruct (happen x rt) as [[o1 rt1]|] eqn:E1; [|discriminate].
    destruct (happenAll rest rt1) as [[o2 rt2]|] eqn:E2; [|discriminate].
    injection Hrun as _ <-.
    apply (IH rt1 rt2 o2); [|exact E2].
    now apply (happen_in_step x rt rt1 o1).
Qed.

(** X15. Whatever the user does and whichever callbacks fire after the
    component is mounted, there is never more than one live interval; there
    is one exactly when the timer is running with time left; and a live
    interval is the one [intervalRef] holds and its callback closed over
    the settings now in force. *)
Theorem at_most_one_interval_and_never_stale :
  forall (xs : list Happening) (out : list Intent) (rt : Runtime),
    happenAll xs mount = Some (out, rt) ->
    (List.length (liveIntervals rt) <= 1)%nat
    /\ (liveIntervals rt <> [] <->
        intervalArmed (appTimer (rtApp rt)) = true)
    /\ (forall (h : Handle) (settings : TimerSettings),
           In (h, settings) (liveIntervals rt) ->
           intervalRef rt = Some h /\ settings = appSettings (rtApp rt)).
Proof.
  intros xs out rt Hrun.
  destruct (happenAll_in_step xs mount rt out mount_in_step Hrun)
    as [_ Htable].
  destruct (intervalArmed (appTimer (rtApp rt))).
  - destruct Htable as (h & Href & Hlive). rewrite Hlive, Href.
    split; [cbn; lia|]. split; [split; [reflexivity | discriminate]|].
    intros h' s' [Heq | []]. injection Heq as <- <-. now split.
  - destruct Htable as (Href & Hlive). rewrite Hlive.
    split; [cbn; lia|]. split; [split; [congruence | discriminate]|].
    intros h' s' [].
Qed.

Lemma at_most_one_interval_and_never_stale_witness :
  exists rt : Runtime,
    happenAll [User (Click MainActionButton); Callback 1%positive;
               User (Click SettingsButton);
               User (Change TurnTimeInput "90")] mount
      = Some ([], rt)
    /\ liveIntervals rt =
         [(3%positive,
           {| turnTime := 90; guessTime := 30; specialTurnTime := 45 |})]
    /\ (List.length (liveIntervals rt) <= 1)%nat.
Proof.
  eexists. split; [reflexivity|]. split; [reflexivity|].
  refine (proj1 (at_most_one_interval_and_never_stale
                   [User (Click MainActionButton); Callback 1%positive;
                    User (Click SettingsButton);
                    User (Change TurnTimeInput "90")] [] _ eq_refl)).
Defined.

Lemma happen_refines_dispatch (x : Happening) (rt rt' : Runtime)
  (out : list Intent) :
  intervalsInStep rt ->
  happen x rt = Some (out, rt') ->
  dispatch (eventOf x) (rtApp rt) = Some (out, rtApp rt').
Proof.
  intros [_ Htable] Hstep.
  destruct x as [[c | f value |] | h]; cbn [happen eventOf] in *.
  - destruct (dispatch (Click c) (rtApp rt)) as [[o app]|]; [|discriminate].
    injection Hstep as <- <-. now rewrite rtApp_commit.
  - destruct (dispatch (Change f value) (rtApp rt)) as [[o app]|];
      [|discriminate].
    injection Hstep as <- <-. now rewrite rtApp_commit.
  - discriminate.
  - unfold dispatch.
    destruct (intervalArmed (appTimer (rtApp rt))).
    + destruct Htable as (h0 & _ & Hlive). rewrite Hlive in Hstep.
      cbn [findInterval] in Hstep.
      destruct (Pos.eqb h0 h); [|discriminate].
      destruct (tick (appSettings (rtApp rt)) (appTimer (rtApp rt)))
        as [o t].
      injection Hstep as <- <-. now rewrite rtApp_commit.
    + destruct Htable as (_ & Hlive). rewrite Hlive in Hstep. discriminate.
Qed.

(** X16. What the mounted component does is what the component-level model
    says: along any sequence of user events and interval callbacks from
    mount, the settings, the timer and the effects requested are those of
    [run] on the corresponding events, every callback counting as one tick
    with the current settings. *)
Theorem runtime_refines_component_model :
  forall (xs : list Happening) (out : list Intent) (rt : Runtime),
    happenAll xs mount = Some (out, rt) ->
    run (map eventOf xs) initialApp = Some (out, rtApp rt).
Proof.
  intros xs.
  change initialApp with (rtApp mount).
  generalize mount_in_step. generalize mount as rt0.
  induction xs as [|x rest IH]; intros rt0 Hin out rt Hrun.
  - cbn in *. now injection Hrun as <- <-.
  - cbn [happenAll map run] in *.
    destruct (happen x rt0) as [[o1 rt1]|] eqn:E1; [|discriminate].
    rewrite (happen_refines_dispatch x rt0 rt1 o1 Hin E1).
    destruct (happenAll rest rt1) as [[o2 rt2]|] eqn:E2; [|discriminate].
    injection Hrun as <- <-.
    now rewrite (IH rt1 (happen_in_step x rt0 rt1 o1 Hin E1) o2 rt2 E2).
Qed.

Lemma runtime_refines_component_model_witness :
  exists app : App,
    run [Click MainActionButton; IntervalFired] initialApp = Some ([], app)
    /\ currentTime (appTimer app) = 59.
Proof.
  pose proof (runtime_refines_component_model
                [User (Click MainActionButton); Callback 1%positive] []
                _ eq_refl) as H.
  eexists. split; [exact H | reflexivity].
Defined.

(** X17. Conversely every event the component-level model allows can
    happen to the mounted component, with the same effects and the same
    resulting state: a click or an edit as itself, a tick as the callback of
    the live interval. *)
Theorem component_model_events_can_happen :
  forall (xs : list Happening) (out0 : list Intent) (rt : Runtime)
         (e : Event) (out : list Intent) (app : App),
    happenAll xs mount = Some (out0, rt) ->
    dispatch e (rtApp rt) = Some (out, app) ->
    exists (x : Happening) (rt' : Runtime),
      eventOf x = e
      /\ happen x rt = Some (out, rt')
      /\ rtApp rt' = app.
Proof.
  intros xs out0 rt e out app Hrun Hd.
  destruct (happenAll_in_step xs mount rt out0 mount_in_step Hrun)
    as [_ Htable].
  destruct e as [c | f value |].
  - exists (User (Click c)). eexists. split; [reflexivity|].
    cbn [happen]. rewrite Hd. split; [reflexivity|]. apply rtApp_commit.
  - exists (User (Change f value)). eexists. split; [reflexivity|].
    cbn [happen]. rewrite Hd. split; [reflexivity|]. apply rtApp_commit.
  - unfold dispatch in Hd.
    destruct (intervalArmed (appTimer (rtApp rt))); [|discriminate].
    destruct Htable as (h & _ & Hlive).
    destruct (tick (appSettings (rtApp rt)) (appTimer (rtApp rt)))
      as [o t] eqn:Et.
    injection Hd as <- <-.
    exists (Callback h),
      (commit (withApp rt (withTimer (rtApp rt) t) (settingsStamp rt))).
    split; [reflexivity|].
    cbn [happen]. rewrite Hlive. cbn [findInterval].
    rewrite Pos.eqb_refl, Et.
    split; [reflexivity|]. apply rtApp_commit.
Qed.

Lemma component_model_events_can_happen_witness :
  exists (x : Happening) (rt' : Runtime),
    eventOf x = IntervalFired
    /\ happen x (commit (withApp mount
                           (onClick MainActionButton initialApp) 0))
       = Some ([], rt')
    /\ currentTime (appTimer (rtApp rt')) = 59.
Proof.
  destruct (component_model_events_can_happen
              [User (Click MainActionButton)] [] _ IntervalFired [] _
              eq_refl eq_refl) as (x & rt' & Hx & Hh & Happ).
  exists x, rt'. split; [exact Hx|]. split; [exact Hh|].
  now rewrite Happ.
Defined.

(** X18. Unmounting clears the interval: whatever happened before, no
    interval is live once the clean-up has run. *)
Theorem unmount_leaves_no_interval :
  forall (xs : list Happening) (out : list Intent) (rt : Runtime),
    happenAll xs mount = Some (out, rt) ->
    liveIntervals (unmount rt) = [].
Proof.
  intros xs out rt Hrun.
  destruct (happenAll_in_step xs mount rt out mount_in_step Hrun)
    as [_ Htable].
  unfold unmount, effectCleanup.
  destruct (intervalArmed (appTimer (rtApp rt))).
  - destruct Htable as (h & Href & Hlive). rewrite Href, Hlive.
    cbn [withEffectDeps liveIntervals]. apply clearInterval_single.
  - destruct Htable as (Href & Hlive). rewrite Href. exact Hlive.
Qed.

Lemma unmount_leaves_no_interval_witness :
  exists rt : Runtime,
    happenAll [User (Click MainActionButton)] mount = Some ([], rt)
    /\ liveIntervals rt = [(1%positive, initialSettings)]
    /\ liveIntervals (unmount rt) = [].
Proof.
  eexists. split; [reflexivity|]. split; [reflexivity|].
  exact (unmount_leaves_no_interval
           [User (Click MainActionButton)] [] _ eq_refl).
Defined.

(** ** Settings and timer, each in its own cell *)

(** X19. The two cells are written by different events.  An edit of an
    input changes the settings only: the clock keeps its value until a
    later event uses the new settings.  Every other event, ticks included,
    leaves the settings as they are. *)
Theorem edits_and_commands_write_different_cells :
  forall (es : list Event) (app app' : App) (out : list Intent),
    run es app = Some (out, app') ->
    (forallb isEdit es = true ->
     appTimer app' = appTimer app /\ out = []
     /\ showSettings app' = showSettings app)
    /\ (forallb (fun e => negb (isEdit e)) es = true ->
        appSettings app' = appSettings app).
Proof.
  induction es as [|e rest IH]; intros app app' out Hrun.
  - cbn in Hrun. injection Hrun as <- <-. now repeat split.
  - cbn [run] in Hrun.
    destruct (dispatch e app) as [[o1 app1]|] eqn:E1; [|discriminate].
    destruct (run rest app1) as [[o2 app2]|] eqn:E2; [|discriminate].
    injection Hrun as <- <-.
    destruct (IH app1 app2 o2 E2) as [IHe IHc].
    cbn [forallb]. split; intros Hall; apply andb_prop in Hall as [He Hrest].
    + destruct e as [c | f value |]; try discriminate.
      unfold dispatch in E1. destruct (showSettings app) eqn:Ep; [|discriminate].
      injection E1 as <- <-.
      destruct (IHe Hrest) as (Ht & -> & Hp). cbn in Ht, Hp.
      now rewrite Ht, Hp.
    + rewrite (IHc Hrest).
      destruct e as [c | f value |]; try discriminate; unfold dispatch in E1.
      * destruct (rendered app c); [|discriminate].
        injection E1 as _ <-. apply onClick_keeps_settings.
      * destruct (intervalArmed (appTimer app)); [|discriminate].
        destruct (tick (appSettings app) (appTimer app)) as [o t].
        now injection E1 as _ <-.
Qed.

Lemma edits_and_commands_write_different_cells_witness :
  let opened := onClick SettingsButton initialApp in
  exists app' : App,
    run [Change TurnTimeInput "90"; Change GuessTimeInput "20"] opened
      = Some ([], app')
    /\ appTimer app' = appTimer opened
    /\ turnTime (appSettings app') = 90.
Proof.
  intros opened. eexists. split; [reflexivity|]. split; [|reflexivity].
  refine (proj1 (proj1 (edits_and_commands_write_different_cells
                   [Change TurnTimeInput "90"; Change GuessTimeInput "20"]
                   opened _ [] eq_refl) eq_refl)).
Defined.

(** ** The caption of the main button *)

(** X20. The main button reads "new turn" exactly when the finished flag is
    set.  In a state that is not both running and finished, a command
    leaves that caption in two cases only: it is the tick that ends a turn
    (one second left, in special mode or in the guess phase), or the
    caption was there and the command is pause or update.  Start, reset,
    next word and the mode toggle always remove it; the expiry of the turn
    phase in regular mode does not raise it. *)
Theorem new_turn_caption_raised_only_by_turn_end :
  forall (settings : TimerSettings) (c : Command) (t : TimerState),
    ~ (isRunning t = true /\ isFinished t = true) ->
    enabled c t = true ->
    (getButtonText (apply settings c t) = NewTurnText <->
     (c = CTick /\ currentTime t = 1
      /\ (mode t = special \/ phase t = guess))
     \/ ((c = CPause \/ c = CApplySettings)
         /\ getButtonText t = NewTurnText)).
Proof.
  intros settings c t Hinv Hen.
  assert (Hcap : forall x, getButtonText x = NewTurnText <-> isFinished x = true).
  { intros x. unfold getButtonText.
    destruct (isFinished x); [tauto|].
    destruct (mode x); [destruct (phase x)|]; split; discriminate. }
  rewrite !Hcap.
  destruct c; cbn [apply enabled] in *.
  - (* tick *)
    unfold intervalArmed in Hen. apply andb_prop in Hen as [Hrun _].
    assert (Hnf : isFinished t = false)
      by (destruct (isFinished t); [exfalso; auto | reflexivity]).
    destruct (Z.eq_dec (currentTime t) 1) as [E1 | N1].
    + rewrite (tick_state_zero settings t E1).
      destruct (mode t), (phase t); cbn [isFinished]; rewrite ?Hnf;
        split; intros H; try reflexivity; try discriminate;
        try (left; repeat split; auto; fail);
        destruct H as [(_ & _ & [H | H]) | ([H | H] & _)]; discriminate.
    + rewrite tick_state_not_zero by lia. cbn [isFinished]. rewrite Hnf.
      split; [discriminate|].
      intros [(_ & H & _) | ([H | H] & _)]; [contradiction | discriminate..].
  - split; [discriminate|].
    intros [(H & _) | ([H | H] & _)]; discriminate.
  - cbn [pauseTimer isFinished]. split; [intros H; right; auto|].
    intros [(H & _) | (_ & H)]; [discriminate | exact H].
  - split; [discriminate|].
    intros [(H & _) | ([H | H] & _)]; discriminate.
  - split; [discriminate|].
    intros [(H & _) | ([H | H] & _)]; discriminate.
  - split; [discriminate|].
    intros [(H & _) | ([H | H] & _)]; discriminate.
  - cbn [updateTimerToSettings isFinished]. split; [intros H; right; auto|].
    intros [(H & _) | (_ & H)]; [discriminate | exact H].
Qed.

Lemma new_turn_caption_raised_only_by_turn_end_witness :
  let t := {| isRunning := true; currentTime := 1; phase := guess;
              isFinished := false; mode := regular; currentWord := 1 |} in
  getButtonText (apply initialSettings CTick t) = NewTurnText.
Proof.
  intros t.
  assert (Hinv : ~ (isRunning t = true /\ isFinished t = true))
    by (intros [_ H]; discriminate).
  apply (new_turn_caption_raised_only_by_turn_end
           initialSettings CTick t Hinv eq_refl).
  left. repeat split. right. reflexivity.
Defined.

(** X21. After a tick that ends a turn, pressing start begins the next turn
    as reset followed by start would: the expiry has already put the
    nominal duration on the clock and returned to the turn phase. *)
Theorem start_after_turn_end_is_reset_then_start :
  forall (settings : TimerSettings) (t : TimerState),
    (mode t = special -> phase t = turn) ->
    currentTime t = 1 ->
    mode t = special \/ phase t = guess ->
    startTimer (snd (tick settings t))
    = startTimer (resetTimer settings t t).
Proof.
  intros settings t Hsp Ht Hend.
  rewrite (tick_state_zero settings t Ht).
  unfold startTimer, resetTimer.
  destruct (mode t) eqn:Em.
  - destruct Hend as [H | H]; [discriminate|]. rewrite H. reflexivity.
  - rewrite (Hsp eq_refl). reflexivity.
Qed.

Lemma start_after_turn_end_is_reset_then_start_witness :
  let t := {| isRunning := true; currentTime := 1; phase := turn;
              isFinished := false; mode := special; currentWord := 4 |} in
  startTimer (snd (tick initialSettings t))
  = {| isRunning := true; currentTime := 45; phase := turn;
       isFinished := false; mode := special; currentWord := 4 |}.
Proof.
  intros t.
  rewrite (start_after_turn_end_is_reset_then_start initialSettings t
             (fun _ => eq_refl) eq_refl (or_introl eq_refl)).
  reflexivity.
Defined.

End AliasTimer.
